(** * coin_tracker: the polling-fetch-alert-log loop of [main.py]

    A shallow embedding of [src/main.py] (the command line tracker):
    the parsers of threshold and holdings specifications, the
    [CryptoTracker] class (CSV header initialisation, price fetch, log
    append), the [AlertManager] class (threshold check, Telegram
    notification), [portfolio_value] and the poll loop of [main].

    Conventions.
    - Python [float] is IEEE 754 binary64: Rocq's primitive [float].
    - Python [str] is modelled by [string] (ASCII text: ticker symbols,
      paths, messages); [upper], [lower] and [strip] act on ASCII.
    - A Python [dict] is an association list in insertion order with
      unique keys ([dict_set] overwrites in place or appends).
    - Effects (network, file system, console, clock, sleep) are explicit:
      a [world] holds the CSV files and the chronological trace of
      events; what the outside answers (an HTTP response, an I/O error,
      the clock) is an argument of the operation that asks for it. *)

From Stdlib Require Import Floats Ascii String.
From stdpp Require Import gmap strings list.

(** ** Python built-ins used by the program *)

(** The textual side of floats is CPython's, not this repository's:
    [float(s)], [str(x)] (also what an f-string and [csv.writer] use) and
    the [.2f] format.  The development is parametric in it. *)
Class FloatText := {
  float_of_str : string -> option float;  (* [None]: [ValueError] *)
  str_of_float : float -> string;
  fmt_2f : float -> string
}.

Module Py.

Definition upper_ascii (c : ascii) : ascii :=
  let n := nat_of_ascii c in
  if (97 <=? n) && (n <=? 122) then ascii_of_nat (n - 32) else c.

Definition lower_ascii (c : ascii) : ascii :=
  let n := nat_of_ascii c in
  if (65 <=? n) && (n <=? 90) then ascii_of_nat (n + 32) else c.

Fixpoint str_map (f : ascii -> ascii) (s : string) : string :=
  match s with
  | EmptyString => EmptyString
  | String c r => String (f c) (str_map f r)
  end.

(** [s.upper()], [s.lower()], on ASCII text *)
Definition upper (s : string) : string := str_map upper_ascii s.
Definition lower (s : string) : string := str_map lower_ascii s.

(** [c.isspace()] on ASCII: TAB, LF, VT, FF, CR, FS, GS, RS, US, SPACE. *)
Definition is_space (c : ascii) : bool :=
  let n := nat_of_ascii c in
  ((9 <=? n) && (n <=? 13)) || ((28 <=? n) && (n <=? 32)).

Definition is_empty (s : string) : bool :=
  match s with EmptyString => true | String _ _ => false end.

Fixpoint lstrip (s : string) : string :=
  match s with
  | EmptyString => EmptyString
  | String c r => if is_space c then lstrip r else s
  end.

Fixpoint rstrip (s : string) : string :=
  match s with
  | EmptyString => EmptyString
  | String c r =>
      let r' := rstrip r in
      if is_space c && is_empty r' then EmptyString else String c r'
  end.

(** [s.strip()], on ASCII text *)
Definition strip (s : string) : string := rstrip (lstrip s).

(** [":" in t] *)
Fixpoint contains (sep : ascii) (t : string) : bool :=
  match t with
  | EmptyString => false
  | String c r => if Ascii.eqb c sep then true else contains sep r
  end.

(** The text before and after the first [sep], when there is one. *)
Fixpoint cut (sep : ascii) (t : string) : option (string * string) :=
  match t with
  | EmptyString => None
  | String c r =>
      if Ascii.eqb c sep then Some (EmptyString, r)
      else match cut sep r with
           | Some (a, b) => Some (String c a, b)
           | None => None
           end
  end.

(** [t.split(sep, 1)]: one or two pieces. *)
Definition split1 (sep : ascii) (t : string) : list string :=
  match cut sep t with
  | Some (a, b) => [a; b]
  | None => [t]
  end.

(** [sep.join(l)] *)
Fixpoint join (sep : string) (l : list string) : string :=
  match l with
  | [] => EmptyString
  | [x] => x
  | x :: r => x +:+ sep +:+ join sep r
  end.

(** Truth value of an optional string ([None] and [""] are false). *)
Definition truthy (o : option string) : bool :=
  match o with
  | Some s => negb (is_empty s)
  | None => false
  end.

(** *** Dictionaries *)

Definition dict (V : Type) : Type := list (string * V).

(** [k in d], as [d.get(k)] sees it: the value stored under [k]. *)
Fixpoint dict_get {V} (d : dict V) (k : string) : option V :=
  match d with
  | [] => None
  | (k', v) :: r => if String.eqb k' k then Some v else dict_get r k
  end.

(** [d[k] = v]: an existing key keeps its position. *)
Fixpoint dict_set {V} (k : string) (v : V) (d : dict V) : dict V :=
  match d with
  | [] => [(k, v)]
  | (k', v') :: r =>
      if String.eqb k' k then (k', v) :: r else (k', v') :: dict_set k v r
  end.

Definition dict_keys {V} (d : dict V) : list string := map fst d.

(** [d.get(k)] where the values may themselves be [None]: Python gives
    [None] both for a missing key and for a stored [None]. *)
Definition get_or_none {V} (d : dict (option V)) (k : string) : option V :=
  match dict_get d k with
  | Some v => v
  | None => None
  end.

(** [{k: v for k, v in l}] *)
Definition dict_of_pairs {V} (l : list (string * V)) : dict V :=
  fold_left (fun d kv => dict_set (fst kv) (snd kv) d) l [].

End Py.
Import Py.

(** ** Command line parsers (main.py, lines 172-194) *)

Section Parsers.
Context `{FT : FloatText}.

(** [parse_thresholds]: [texts] is [None] when the option was never
    given ([texts or []]). *)
Definition parse_thresholds (texts : option (list string)) : dict float :=
  fold_left
    (fun out t =>
       if negb (contains ":" t) then out            (* continue *)
       else match split1 ":" t with
            | [sym; val] =>
                match float_of_str (strip val) with
                | Some v => dict_set (upper (strip sym)) v out
                | None => out                         (* except: pass *)
                end
            | _ => out
            end)
    (default [] texts) [].

Definition parse_holdings (texts : option (list string)) : dict float :=
  fold_left
    (fun out t =>
       if negb (contains ":" t) then out
       else match split1 ":" t with
            | [sym; val] =>
                match float_of_str (strip val) with
                | Some v => dict_set (upper (strip sym)) v out
                | None => out
                end
            | _ => out
            end)
    (default [] texts) [].

(** The parser as the specification words it: an entry is split on its
    first colon, the symbol is upper-cased and trimmed, the value is read
    as a float; an entry without a colon or with a value that is not a
    number is skipped. *)
Definition entry_in_words (t : string) : option (string * float) :=
  match cut ":" t with
  | None => None
  | Some (sym, val) =>
      match float_of_str (strip val) with
      | None => None
      | Some v => Some (strip (upper sym), v)
      end
  end.

Definition parser_in_words (texts : list string) : dict float :=
  dict_of_pairs (omap entry_in_words texts).

End Parsers.

(** ** The outside world *)

(** Events, in the order the program causes them. *)
Inductive event :=
| PrintLine (line : string)
| HttpGet (url : string) (params : list (string * string))
| HttpPost (url : string) (data : list (string * string))
| FileOpen (path : string) (mode : string)
| Sleep (seconds : Z).

(** A CSV file is the list of its records, each the list of its fields
    (what [csv.writer.writerow] was given, as text). *)
Record world := {
  files : gmap string (list (list string));
  trace : list event
}.

Definition emit (e : event) (w : world) : world :=
  {| files := files w; trace := trace w ++ [e] |}.

Definition write_file (path : string) (rows : list (list string)) (w : world) : world :=
  {| files := <[path := rows]> (files w); trace := trace w |}.

Inductive exn :=
| Exception (msg : string)
| KeyboardInterrupt.

Inductive result (A : Type) :=
| Ok (a : A)
| Raise (e : exn).
Arguments Ok {A} a.
Arguments Raise {A} e.

(** A JSON value where a price is expected: [null], or a number, held as
    the float [float(price)] makes of it. *)
Inductive jval :=
| JNull
| JNum (x : float).

(** What the price provider answers to one request: [HttpError e] when
    [requests.get], [raise_for_status], [resp.json()] or the reading of
    the decoded data raises [e]; otherwise the decoded object
    [{identifier: {currency: value}}]. *)
Inductive http_result :=
| HttpError (e : string)
| HttpJson (data : dict (dict jval)).

(** ** Configuration and helpers (main.py, lines 28-47) *)

Definition COINGECKO_IDS : dict string :=
  [("BTC", "bitcoin"); ("ETH", "ethereum"); ("BNB", "binancecoin");
   ("ADA", "cardano"); ("SOL", "solana"); ("XRP", "ripple");
   ("DOT", "polkadot"); ("DOGE", "dogecoin")].

Definition COINGECKO_SIMPLE_PRICE : string :=
  "https://api.coingecko.com/api/v3/simple/price".

Definition to_id (symbol : string) : string :=
  let symbol := upper symbol in
  default (lower symbol) (dict_get COINGECKO_IDS symbol).

(** ** Core tracker (main.py, lines 54-91) *)

Record CryptoTracker := {
  symbols : list string;
  ids : list string;
  vs_currency : string;
  csv_path : option string
}.

Definition csv_header (self : CryptoTracker) : list string :=
  "timestamp" :: map (fun s => s +:+ "_" +:+ vs_currency self) (symbols self).

(** [_ensure_csv]; [io] is the error of [open(path, "w")], if any.
    [__init__] calls it with a path only; [os.path.exists(None)] raises
    a [TypeError]. *)
Definition ensure_csv (self : CryptoTracker) (io : option string) (w : world)
  : world * result unit :=
  match csv_path self with
  | None => (w, Raise (Exception "TypeError"))
  | Some path =>
      match files w !! path with
      | Some _ => (w, Ok tt)
      | None =>
          let w := emit (FileOpen path "w") w in
          match io with
          | Some e => (w, Raise (Exception e))
          | None => (write_file path [csv_header self] w, Ok tt)
          end
      end
  end.

(** [CryptoTracker.__init__] *)
Definition CryptoTracker_init (syms : list string) (vs : string)
  (path : option string) (io : option string) (w : world)
  : world * result CryptoTracker :=
  let self := {| symbols := map upper syms;
                 ids := map to_id (map upper syms);
                 vs_currency := vs;
                 csv_path := path |} in
  if truthy path then
    match ensure_csv self io w with
    | (w, Ok _) => (w, Ok self)
    | (w, Raise e) => (w, Raise e)
    end
  else (w, Ok self).

Definition price_of_json (j : option jval) : option float :=
  match j with
  | Some (JNum x) => Some x
  | Some JNull | None => None
  end.

(** [fetch_prices]; [resp] is the provider's answer to the request. *)
Definition fetch_prices (self : CryptoTracker) (resp : http_result) (w : world)
  : world * result (dict (option float)) :=
  let ids_param := join "," (ids self) in
  let params := [("ids", ids_param); ("vs_currencies", vs_currency self)] in
  let w := emit (HttpGet COINGECKO_SIMPLE_PRICE params) w in
  match resp with
  | HttpError e => (w, Raise (Exception e))
  | HttpJson data =>
      (w, Ok (fold_left
                (fun out si =>
                   let price := dict_get (default [] (dict_get data (snd si)))
                                  (vs_currency self) in
                   dict_set (fst si) (price_of_json price) out)
                (zip (symbols self) (ids self)) []))
  end.

Section Tracker.
Context `{FT : FloatText}.

(** A field as [csv.writer] writes it: [None] is the empty field. *)
Definition csv_field (v : option float) : string :=
  match v with
  | Some x => str_of_float x
  | None => ""
  end.

Definition log_row (self : CryptoTracker) (prices : dict (option float))
  (now : string) : list string :=
  now :: map (fun s => csv_field (get_or_none prices s)) (symbols self).

(** [log]; [now] is what [now_iso()] returns, [io] the error of
    [open(path, "a")], if any: the append fails before anything is
    written.  (An error that comes while the row is written or the file
    closed, which can leave part of a row, is outside this model.) *)
Definition log (self : CryptoTracker) (prices : dict (option float))
  (now : string) (io : option string) (w : world) : world * result unit :=
  if negb (truthy (csv_path self)) then (w, Ok tt)
  else
    match csv_path self with
    | None => (w, Ok tt)
    | Some path =>
        let row := log_row self prices now in
        let w := emit (FileOpen path "a") w in
        match io with
        | Some e => (w, Raise (Exception e))
        | None =>
            (write_file path (default [] (files w !! path) ++ [row]) w, Ok tt)
        end
    end.

(** ** Alerts and notifications (main.py, lines 96-124) *)

Record AlertManager := {
  thresholds : dict float;
  telegram_token : option string;
  telegram_chat_id : option string
}.

(** [AlertManager.__init__] *)
Definition AlertManager_init (thr : option (dict float))
  (token chat : option string) : AlertManager :=
  {| thresholds := dict_of_pairs (map (fun kv => (upper (fst kv), snd kv))
                                      (default [] thr));
     telegram_token := token;
     telegram_chat_id := chat |}.

Definition alert_message (sym : string) (price thr : float) : string :=
  "ALERT: " +:+ sym +:+ " price " +:+ str_of_float price
  +:+ " <= threshold " +:+ str_of_float thr.

(** The objects [check] works with: the two mappings it is given and the
    list it builds. *)
Record check_store := {
  st_prices : dict (option float);
  st_thresholds : dict float;
  st_messages : list string
}.

(** One iteration of the loop of [check]. *)
Definition check_step (st : check_store) (item : string * option float)
  : check_store :=
  match snd item with
  | None => st                                             (* continue *)
  | Some price =>
      match dict_get (st_thresholds st) (fst item) with
      | Some thr =>
          if PrimFloat.leb price thr then
            {| st_prices := st_prices st;
               st_thresholds := st_thresholds st;
               st_messages := st_messages st ++ [alert_message (fst item) price thr] |}
          else st
      | None => st
      end
  end.

(** The body of [check] on the store: [messages = []], then the loop
    over [prices.items()]. *)
Definition check_run (st : check_store) : check_store :=
  fold_left check_step (st_prices st)
    {| st_prices := st_prices st;
       st_thresholds := st_thresholds st;
       st_messages := [] |}.

(** [AlertManager.check] *)
Definition check (self : AlertManager) (prices : dict (option float))
  : list string :=
  st_messages (check_run {| st_prices := prices;
                            st_thresholds := thresholds self;
                            st_messages := [] |}).

Definition telegram_url (token : string) : string :=
  "https://api.telegram.org/bot" +:+ token +:+ "/sendMessage".

(** The loop of [send_telegram] from message number [i] on; [post i] is
    the exception [requests.post] raises for message [i], if any. *)
Fixpoint send_each (token chat : string) (post : nat -> option string)
  (i : nat) (messages : list string) (w : world) : world :=
  match messages with
  | [] => w
  | msg :: rest =>
      let w := emit (HttpPost (telegram_url token)
                       [("chat_id", chat); ("text", msg)]) w in
      let w := match post i with
               | Some e => emit (PrintLine ("Failed to send telegram: " +:+ e)) w
               | None => w
               end in
      send_each token chat post (S i) rest w
  end.

(** [AlertManager.send_telegram] *)
Definition send_telegram (self : AlertManager) (messages : list string)
  (post : nat -> option string) (w : world) : world :=
  if negb (truthy (telegram_token self) && truthy (telegram_chat_id self)) then w
  else send_each (default "" (telegram_token self))
         (default "" (telegram_chat_id self)) post 0 messages w.

(** ** Portfolio (main.py, lines 160-167) *)

Definition portfolio_value (prices : dict (option float)) (holdings : dict float)
  : float :=
  fold_left
    (fun total h =>
       match get_or_none prices (upper (fst h)) with
       | None => total                                     (* continue *)
       | Some p => (total + p * snd h)%float
       end)
    holdings 0%float.

End Tracker.

(** ** Command line runner (main.py, lines 196-247) *)

(** [time.sleep(seconds)] on an integer, as CPython 3.11 and later do it
    (the program needs [datetime.UTC]): the duration is first converted
    to a signed 64-bit count of nanoseconds, with [OverflowError] when it
    does not fit, and a negative duration is then refused with
    [ValueError].  [None]: the call sleeps. *)
Definition sleep_error (seconds : Z) : option string :=
  let ns := (seconds * 1000000000)%Z in
  if (ns <? -9223372036854775808)%Z || (9223372036854775807 <? ns)%Z
  then Some "timestamp too large to convert to C _PyTime_t"
  else if (seconds <? 0)%Z then Some "sleep length must be non-negative"
  else None.

Record Args := {
  arg_symbols : list string;
  arg_interval : Z;
  arg_csv : string;
  arg_threshold : option (list string);
  arg_holdings : option (list string);
  arg_plot : bool;
  arg_run_once : bool;
  arg_telegram_token : option string;
  arg_telegram_chat_id : option string
}.

(** What the outside does during one tick: the provider's answer, the two
    readings of the clock (tick line, log row), the error of the log's
    [open], the errors of the Telegram posts, and whether the interrupt
    signal arrives during the sleep. *)
Record tick_env := {
  fetch_response : http_result;
  now_tick : string;
  now_log : string;
  log_io : option string;
  post_io : nat -> option string;
  interrupted : bool
}.

(** How one pass through the body of [while True] ends. *)
Inductive flow :=
| Continue                (* slept; the loop goes on *)
| Break                   (* [--run-once] *)
| Raised (e : exn).       (* an exception leaves the body *)

Inductive loop_status :=
| Running                 (* the loop is still polling *)
| Ended                   (* left by [break] or by the interrupt handler *)
| Aborted (e : exn).      (* an exception left [main] *)

Section Runner.
Context `{FT : FloatText}.

(** [{s: None for s in tracker.symbols}] *)
Definition all_absent (syms : list string) : dict (option float) :=
  fold_left (fun d s => dict_set s None d) syms [].

(** [f"{s}: {prices.get(s, 'N/A')}"] *)
Definition display_item (prices : dict (option float)) (s : string) : string :=
  s +:+ ": " +:+ match dict_get prices s with
                 | None => "N/A"
                 | Some None => "None"
                 | Some (Some x) => str_of_float x
                 end.

Definition tick_line (tracker : CryptoTracker) (prices : dict (option float))
  (ts : string) : string :=
  "[" +:+ ts +:+ "] " +:+ join " | " (map (display_item prices) (symbols tracker)).

Definition print_all (lines : list string) (w : world) : world :=
  fold_left (fun w m => emit (PrintLine m) w) lines w.

(** The body of [while True] (lines 218-245). *)
Definition tick (args : Args) (tracker : CryptoTracker) (alerts : AlertManager)
  (holdings : dict float) (csv : option string) (env : tick_env) (w : world)
  : world * flow :=
  let fetched :=
    match fetch_prices tracker (fetch_response env) w with
    | (w, Ok prices) => (w, Ok prices)
    | (w, Raise (Exception e)) =>
        (emit (PrintLine ("Fetch failed: " +:+ e)) w, Ok (all_absent (symbols tracker)))
    | (w, Raise KeyboardInterrupt) => (w, Raise KeyboardInterrupt)
    end in
  match fetched with
  | (w, Raise e) => (w, Raised e)
  | (w, Ok prices) =>
      let w := emit (PrintLine (tick_line tracker prices (now_tick env))) w in
      let logged :=
        if truthy csv then log tracker prices (now_log env) (log_io env) w
        else (w, Ok tt) in
      match logged with
      | (w, Raise e) => (w, Raised e)
      | (w, Ok _) =>
          let msgs := check alerts prices in
          let w :=
            match msgs with
            | [] => w
            | _ :: _ => send_telegram alerts msgs (post_io env) (print_all msgs w)
            end in
          let w :=
            match holdings with
            | [] => w
            | _ :: _ =>
                emit (PrintLine ("PORTFOLIO VALUE: "
                             +:+ fmt_2f (portfolio_value prices holdings)
                             +:+ " " +:+ upper (vs_currency tracker))) w
            end in
          if arg_run_once args then (w, Break)
          else
            match sleep_error (arg_interval args) with
            | Some e => (w, Raised (Exception e))
            | None =>
                let w := emit (Sleep (arg_interval args)) w in
                if interrupted env then (w, Raised KeyboardInterrupt)
                else (w, Continue)
            end
      end
  end.

(** [try: while True: ... except KeyboardInterrupt: ...] over the ticks
    the environment has played so far. *)
Fixpoint poll_loop (args : Args) (tracker : CryptoTracker) (alerts : AlertManager)
  (holdings : dict float) (csv : option string) (envs : list tick_env)
  (w : world) : world * loop_status :=
  match envs with
  | [] => (w, Running)
  | env :: envs =>
      match tick args tracker alerts holdings csv env w with
      | (w, Continue) => poll_loop args tracker alerts holdings csv envs w
      | (w, Break) => (w, Ended)
      | (w, Raised KeyboardInterrupt) =>
          (emit (PrintLine (String "010" "Stopped by user.")) w, Ended)
      | (w, Raised e) => (w, Aborted e)
      end
  end.

(** [main] up to the end of the loop (the optional plots that follow it
    are left out); [init_io] is the error of the header's [open], if
    any. *)
Definition main (args : Args) (init_io : option string) (envs : list tick_env)
  (w : world) : world * loop_status :=
  let csv := if is_empty (arg_csv args) then None else Some (arg_csv args) in
  match CryptoTracker_init (arg_symbols args) "usd" csv init_io w with
  | (w, Raise e) => (w, Aborted e)
  | (w, Ok tracker) =>
      let thr := parse_thresholds (arg_threshold args) in
      let holdings := parse_holdings (arg_holdings args) in
      let alerts := AlertManager_init (Some thr) (arg_telegram_token args)
                      (arg_telegram_chat_id args) in
      let w := emit (PrintLine ("Tracking: " +:+ join ", " (symbols tracker))) w in
      poll_loop args tracker alerts holdings csv envs w
  end.

End Runner.

(** ** Notions the properties are stated with *)

Section Notions.
Context `{FT : FloatText}.

(** The alert rule for one entry of the price mapping: a message when
    the price is present, a threshold is configured and price <= threshold;
    none otherwise. *)
Definition entry_alert (thr : dict float) (item : string * option float)
  : option string :=
  match snd item, dict_get thr (fst item) with
  | Some p, Some t =>
      if PrimFloat.leb p t then Some (alert_message (fst item) p t) else None
  | _, _ => None
  end.

(** Keys in the order of their first occurrence. *)
Definition add_key (acc : list string) (s : string) : list string :=
  if existsb (String.eqb s) acc then acc else acc ++ [s].

Definition first_occurrences (l : list string) : list string :=
  fold_left add_key l [].

(** A tracker as [__init__] builds it. *)
Definition constructed (self : CryptoTracker) : Prop :=
  ids self = map to_id (symbols self).

(** Left-to-right floating-point sum, from [0.0]. *)
Definition float_sum (l : list float) : float :=
  fold_left PrimFloat.add l 0%float.

(** The holdings that have a price, each with that price. *)
Definition priced (prices : dict (option float)) (holdings : dict float)
  : list (float * float) :=
  omap (fun h => match get_or_none prices (upper (fst h)) with
                 | Some p => Some (p, snd h)
                 | None => None
                 end) holdings.

(** The tracker [__init__] builds from its arguments. *)
Definition made_tracker (syms : list string) (vs : string)
  (path : option string) : CryptoTracker :=
  {| symbols := map upper syms;
     ids := map to_id (map upper syms);
     vs_currency := vs;
     csv_path := path |}.

(** One observation handed to [log]: the prices, the clock and the error
    of the append, if any. *)
Record observation := {
  obs_prices : dict (option float);
  obs_now : string;
  obs_io : option string
}.

(** Successive calls of [log]; an append that raises is skipped and the
    next one is made all the same. *)
Definition log_all (self : CryptoTracker) (obs : list observation) (w : world)
  : world :=
  fold_left (fun w o => fst (log self (obs_prices o) (obs_now o) (obs_io o) w))
    obs w.

(** One run of the process against a log target: the store is
    initialised, then observations are appended. *)
Definition session (syms : list string) (vs path : string)
  (run : option string * list observation) (w : world) : world :=
  match CryptoTracker_init syms vs (Some path) (fst run) w with
  | (w, Ok self) => log_all self (snd run) w
  | (w, Raise _) => w
  end.

Definition sessions (syms : list string) (vs path : string)
  (runs : list (option string * list observation)) (w : world) : world :=
  fold_left (fun w run => session syms vs path run w) runs w.

Definition appended (o : observation) : bool :=
  match obs_io o with None => true | Some _ => false end.

(** What the delivery of message number [i] adds to the trace: the
    request, and the report when the request raised. *)
Definition delivery (token chat : string) (post : nat -> option string)
  (i : nat) (msg : string) : list event :=
  HttpPost (telegram_url token) [("chat_id", chat); ("text", msg)]
  :: match post i with
     | Some e => [PrintLine ("Failed to send telegram: " +:+ e)]
     | None => []
     end.

(** The delivery attempts recorded in a trace. *)
Definition is_post (e : event) : bool :=
  match e with HttpPost _ _ => true | _ => false end.

Definition posts (t : list event) : list event := filter (fun e => is_post e = true) t.

Definition is_sleep (e : event) : bool :=
  match e with Sleep _ => true | _ => false end.

Definition is_append (e : event) : bool :=
  match e with FileOpen _ "a" => true | _ => false end.

End Notions.

(** ** A small instance for the examples

    Digit strings are read as floats and every float prints as [?]; the
    examples below do not depend on how a float is printed. *)

Definition digit_value (c : ascii) : option float :=
  match Ascii.is_nat c with
  | Some n => Some (nth n [0; 1; 2; 3; 4; 5; 6; 7; 8; 9]%float 0%float)
  | None => None
  end.

Fixpoint read_digits (acc : float) (s : string) : option float :=
  match s with
  | EmptyString => Some acc
  | String c r =>
      match digit_value c with
      | Some d => read_digits (acc * 10 + d)%float r
      | None => None
      end
  end.

Definition example_text : FloatText :=
  {| float_of_str := fun s => if is_empty s then None else read_digits 0%float s;
     str_of_float := fun _ => "?";
     fmt_2f := fun _ => "?" |}.

(** The objects of the examples: BTC and ETH tracked into [prices.csv],
    an alert on BTC at 60000. *)
Definition example_tracker : CryptoTracker :=
  made_tracker ["BTC"; "ETH"] "usd" (Some "prices.csv").

Definition example_alerts : AlertManager :=
  AlertManager_init (Some [("BTC", 60000%float)]) None None.

Definition example_args (run_once : bool) : Args :=
  {| arg_symbols := ["BTC"; "ETH"];
     arg_interval := 15;
     arg_csv := "prices.csv";
     arg_threshold := Some ["BTC:60000"];
     arg_holdings := None;
     arg_plot := false;
     arg_run_once := run_once;
     arg_telegram_token := None;
     arg_telegram_chat_id := None |}.

(** The same command line with [--interval -5], which [argparse] accepts. *)
Definition negative_interval_args : Args :=
  {| arg_symbols := ["BTC"; "ETH"];
     arg_interval := -5;
     arg_csv := "prices.csv";
     arg_threshold := Some ["BTC:60000"];
     arg_holdings := None;
     arg_plot := false;
     arg_run_once := false;
     arg_telegram_token := None;
     arg_telegram_chat_id := None |}.

Definition example_data : dict (dict jval) :=
  [("bitcoin", [("usd", JNum 59000%float)]);
   ("ethereum", [("usd", JNum 3000%float)])].

(** A tick whose fetch fails, a tick whose fetch succeeds, and a tick
    whose fetch succeeds but whose log append fails. *)
Definition env_fetch_fails : tick_env :=
  {| fetch_response := HttpError "timed out";
     now_tick := "2025-01-01T00:00:00+00:00Z";
     now_log := "2025-01-01T00:00:00+00:00Z";
     log_io := None;
     post_io := fun _ => None;
     interrupted := false |}.

Definition env_ok : tick_env :=
  {| fetch_response := HttpJson example_data;
     now_tick := "2025-01-01T00:00:15+00:00Z";
     now_log := "2025-01-01T00:00:15+00:00Z";
     log_io := None;
     post_io := fun _ => None;
     interrupted := false |}.

Definition env_append_fails : tick_env :=
  {| fetch_response := HttpJson example_data;
     now_tick := "2025-01-01T00:00:00+00:00Z";
     now_log := "2025-01-01T00:00:00+00:00Z";
     log_io := Some "[Errno 28] No space left on device";
     post_io := fun _ => None;
     interrupted := false |}.

(** An alert manager with Telegram credentials, and a network on which
    the first post of a batch fails. *)
Definition example_notifier : AlertManager :=
  {| thresholds := [("BTC", 60000%float)];
     telegram_token := Some "TOKEN";
     telegram_chat_id := Some "42" |}.

Definition first_post_fails (i : nat) : option string :=
  match i with
  | 0 => Some "connection reset"
  | S _ => None
  end.

Definition empty_world : world := {| files := ∅; trace := [] |}.

(** A world where [prices.csv] holds its header already. *)
Definition world_with_log : world :=
  {| files := {[ "prices.csv" := [csv_header example_tracker] ]}; trace := [] |}.

(** ** Plot column (main.py, lines 131-146)

    The part of [plot_from_csv] that is this program's own: which column
    of the data frame holds the prices of [symbol].  [columns] is
    [df.columns]; reading the file and drawing are pandas' and
    matplotlib's. *)

(** Text on which [upper], [lower] and [strip] are Python's: every
    character is ASCII.  (Outside ASCII, [str.upper] and [str.lower] may
    change the length of the text, which these do not.) *)
Fixpoint ascii_only (s : string) : bool :=
  match s with
  | EmptyString => true
  | String c r => (nat_of_ascii c <? 128) && ascii_only r
  end.

(** [x in columns] *)
Definition str_in (x : string) (columns : list string) : bool :=
  existsb (String.eqb x) columns.

(** [s.startswith(p)] *)
Fixpoint startswith (p s : string) : bool :=
  match p with
  | EmptyString => true
  | String a p' =>
      match s with
      | EmptyString => false
      | String b s' => if Ascii.eqb a b then startswith p' s' else false
      end
  end.

Definition plot_column (csv_path symbol : string) (columns : list string)
  : result string :=
  let col :=
    if negb (str_in (symbol +:+ "_usd") columns) && str_in (symbol +:+ "_USD") columns
    then symbol +:+ "_USD"
    else symbol +:+ "_usd" in
  let col :=
    if negb (str_in col columns) then
      let alt := upper (symbol +:+ "_usd") in
      if str_in alt columns then alt else col
    else col in
  if negb (str_in col columns) then
    let candidates :=
      List.filter (fun c => startswith (lower symbol +:+ "_") (lower c)) columns in
    match candidates with
    | c :: _ => Ok c
    | [] => Raise (Exception ("Symbol column for " +:+ symbol
                              +:+ " not found in " +:+ csv_path))
    end
  else Ok col.

(** ** Notions for the properties of the loop *)

(** The observation of a tick: what the fetch returned, or the all-absent
    mapping when it raised. *)
Definition observed (tracker : CryptoTracker) (env : tick_env)
  : dict (option float) :=
  match fetch_prices tracker (fetch_response env) {| files := ∅; trace := [] |} with
  | (_, Ok prices) => prices
  | (_, Raise _) => all_absent (symbols tracker)
  end.

(** The request of a tick. *)
Definition price_request (tracker : CryptoTracker) : event :=
  HttpGet COINGECKO_SIMPLE_PRICE
    [("ids", join "," (ids tracker)); ("vs_currencies", vs_currency tracker)].

Section TickParts.
Context `{FT : FloatText}.

(** The body of the loop in three parts: up to the tick line, the
    append, and what follows the append. *)
Definition before_log (tracker : CryptoTracker) (env : tick_env) (w : world)
  : world :=
  let w := emit (price_request tracker) w in
  let w := match fetch_response env with
           | HttpError e => emit (PrintLine ("Fetch failed: " +:+ e)) w
           | HttpJson _ => w
           end in
  emit (PrintLine (tick_line tracker (observed tracker env) (now_tick env))) w.

Definition after_log (args : Args) (tracker : CryptoTracker)
  (alerts : AlertManager) (holdings : dict float) (env : tick_env) (w : world)
  : world * flow :=
  let prices := observed tracker env in
  let msgs := check alerts prices in
  let w :=
    match msgs with
    | [] => w
    | _ :: _ => send_telegram alerts msgs (post_io env) (print_all msgs w)
    end in
  let w :=
    match holdings with
    | [] => w
    | _ :: _ =>
        emit (PrintLine ("PORTFOLIO VALUE: "
                         +:+ fmt_2f (portfolio_value prices holdings)
                         +:+ " " +:+ upper (vs_currency tracker))) w
    end in
  if arg_run_once args then (w, Break)
  else
    match sleep_error (arg_interval args) with
    | Some e => (w, Raised (Exception e))
    | None =>
        let w := emit (Sleep (arg_interval args)) w in
        if interrupted env then (w, Raised KeyboardInterrupt)
        else (w, Continue)
    end.

End TickParts.

(** [w'] has the trace of [w] followed by events that all satisfy [P]. *)
Definition extends (P : event -> Prop) (w w' : world) : Prop :=
  exists new, trace w' = trace w ++ new /\ Forall P new.

Definition is_get (e : event) : bool :=
  match e with HttpGet _ _ => true | _ => false end.

Definition is_open (e : event) : bool :=
  match e with FileOpen _ _ => true | _ => false end.

(** Upper-case keys, as the parsers and [AlertManager.__init__] make them. *)
Definition upper_keys {V} (d : dict V) : Prop :=
  Forall (fun kv => upper (fst kv) = fst kv) d.

(** * Properties *)

(** ** Strings and dictionaries *)

Lemma contains_cut sep t :
  contains sep t = match cut sep t with Some _ => true | None => false end.
Proof.
  induction t as [|c r IH]; simpl; [done|].
  destruct (Ascii.eqb c sep); [done|].
  rewrite IH. by destruct (cut sep r) as [[a b]|].
Qed.

Lemma is_space_upper c : is_space (upper_ascii c) = is_space c.
Proof. by destruct c as [[] [] [] [] [] [] [] []]. Qed.

Lemma is_empty_upper s : is_empty (upper s) = is_empty s.
Proof. by destruct s. Qed.

Lemma lstrip_upper s : lstrip (upper s) = upper (lstrip s).
Proof.
  induction s as [|c r IH]; [done|].
  change (upper (String c r)) with (String (upper_ascii c) (upper r)).
  cbn [lstrip]. rewrite is_space_upper. by destruct (is_space c).
Qed.

Lemma rstrip_upper s : rstrip (upper s) = upper (rstrip s).
Proof.
  induction s as [|c r IH]; [done|].
  change (upper (String c r)) with (String (upper_ascii c) (upper r)).
  cbn [rstrip]. rewrite is_space_upper, IH, is_empty_upper.
  by destruct (is_space c && is_empty (rstrip r)).
Qed.

Lemma strip_upper s : strip (upper s) = upper (strip s).
Proof. unfold strip. by rewrite lstrip_upper, rstrip_upper. Qed.

Lemma dict_keys_set {V} k (v : V) d :
  dict_keys (dict_set k v d) = add_key (dict_keys d) k.
Proof.
  unfold add_key. induction d as [|[k' v'] r IH]; simpl; [done|].
  rewrite (String.eqb_sym k k').
  destruct (String.eqb k' k); simpl; [done|].
  rewrite IH. by destruct (existsb (String.eqb k) (dict_keys r)).
Qed.

Lemma dict_get_set_same {V} k (v : V) d : dict_get (dict_set k v d) k = Some v.
Proof.
  induction d as [|[k' v'] r IH]; simpl.
  - by rewrite String.eqb_refl.
  - destruct (String.eqb k' k) eqn:E; simpl; by rewrite E.
Qed.

Lemma dict_get_set_other {V} k k' (v : V) d :
  k <> k' -> dict_get (dict_set k v d) k' = dict_get d k'.
Proof.
  intros Hne. induction d as [|[k0 v0] r IH]; simpl.
  - destruct (String.eqb_spec k k'); [done|done].
  - destruct (String.eqb_spec k0 k) as [->|]; simpl.
    + destruct (String.eqb_spec k k'); [done|done].
    + by rewrite IH.
Qed.

(** ** Parsers *)

Section ParserFacts.
Context `{FT : FloatText}.

Lemma parse_step_in_words (out : dict float) t :
  (if negb (contains ":" t) then out
   else match split1 ":" t with
        | [sym; val] =>
            match float_of_str (strip val) with
            | Some v => dict_set (upper (strip sym)) v out
            | None => out
            end
        | _ => out
        end)
  = match entry_in_words t with
    | Some kv => dict_set (fst kv) (snd kv) out
    | None => out
    end.
Proof.
  unfold entry_in_words, split1. rewrite contains_cut.
  destruct (cut ":" t) as [[sym val]|]; simpl; [|done].
  rewrite strip_upper. by destruct (float_of_str (strip val)).
Qed.

Lemma fold_entries (texts : list string) (acc : dict float) :
  fold_left (fun out t => match entry_in_words t with
                          | Some kv => dict_set (fst kv) (snd kv) out
                          | None => out
                          end) texts acc
  = fold_left (fun d kv => dict_set (fst kv) (snd kv) d)
      (omap entry_in_words texts) acc.
Proof.
  revert acc. induction texts as [|t r IH]; intros acc; simpl; [done|].
  rewrite IH. by destruct (entry_in_words t).
Qed.

(** C10: the threshold parser and the holdings parser return equal
    mappings on every input, and both are the function of the
    specification: each entry is split on its first colon, the symbol
    upper-cased and trimmed, the value read as a float, and an entry with
    no colon or no number is skipped. *)
Theorem parse_thresholds_parse_holdings (texts : option (list string)) :
  parse_thresholds texts = parse_holdings texts
  /\ parse_thresholds texts = parser_in_words (default [] texts).
Proof.
  split; [reflexivity|].
  unfold parse_thresholds, parser_in_words, dict_of_pairs.
  rewrite <- fold_entries. generalize (@nil (string * float)).
  induction (default [] texts) as [|t r IH]; intros acc; simpl; [done|].
  by rewrite parse_step_in_words, IH.
Qed.

End ParserFacts.

(** ** Alert evaluation *)

Lemma float_eqb_leb (p t : float) :
  PrimFloat.eqb p t = true -> PrimFloat.leb p t = true.
Proof.
  rewrite FloatAxioms.eqb_spec, FloatAxioms.leb_spec. unfold SFeqb, SFleb.
  by destruct (SFcompare _ _) as [[]|].
Qed.

Lemma fold_add_key_fresh (l acc : list string) :
  NoDup (acc ++ l) -> fold_left add_key l acc = acc ++ l.
Proof.
  revert acc. induction l as [|s r IH]; intros acc Hnd; simpl.
  - by rewrite app_nil_r.
  - assert (existsb (String.eqb s) acc = false) as Hs.
    { apply not_true_is_false. intros Hex.
      apply existsb_exists in Hex as (x & Hin & Heq).
      apply String.eqb_eq in Heq as <-.
      apply NoDup_app in Hnd as (_ & Hdisj & _).
      apply (Hdisj s); [by apply list_elem_of_In | left]. }
    unfold add_key at 2. rewrite Hs, IH; rewrite <- app_assoc; done.
Qed.

Lemma first_occurrences_NoDup (l : list string) :
  NoDup l -> first_occurrences l = l.
Proof. intros H. unfold first_occurrences. by rewrite fold_add_key_fresh. Qed.

Lemma dict_keys_fold_set {A V} (key : A -> string) (val : A -> V)
  (l : list A) (acc : dict V) :
  dict_keys (fold_left (fun out x => dict_set (key x) (val x) out) l acc)
  = fold_left add_key (map key l) (dict_keys acc).
Proof.
  revert acc. induction l as [|x r IH]; intros acc; simpl; [done|].
  by rewrite IH, dict_keys_set.
Qed.

Lemma all_absent_keys (syms : list string) :
  dict_keys (all_absent syms) = first_occurrences syms.
Proof.
  unfold all_absent, first_occurrences.
  rewrite (dict_keys_fold_set (fun s => s) (fun _ => None)). by rewrite map_id.
Qed.

Lemma fetch_prices_keys (self : CryptoTracker) data w prices :
  constructed self ->
  snd (fetch_prices self (HttpJson data) w) = Ok prices ->
  dict_keys prices = first_occurrences (symbols self).
Proof.
  unfold constructed, fetch_prices, first_occurrences. simpl.
  intros Hids [= <-].
  rewrite (dict_keys_fold_set fst
             (fun si => price_of_json
                          (dict_get (default [] (dict_get data (snd si)))
                             (vs_currency self)))).
  simpl. change (map fst ?l) with (l.*1). rewrite fst_zip; [done|].
  by rewrite Hids, length_map.
Qed.

Section AlertFacts.
Context `{FT : FloatText}.

Lemma check_step_spec (st : check_store) item :
  check_step st item
  = {| st_prices := st_prices st;
       st_thresholds := st_thresholds st;
       st_messages := st_messages st
                      ++ option_list (entry_alert (st_thresholds st) item) |}.
Proof.
  unfold check_step, entry_alert. destruct st as [ps ts ms], item as [sym [p|]]; simpl.
  - destruct (dict_get ts sym) as [t|]; simpl; [|by rewrite app_nil_r].
    destruct (PrimFloat.leb p t); simpl; [done|by rewrite app_nil_r].
  - by rewrite app_nil_r.
Qed.

Lemma fold_check_step (items : dict (option float)) (st : check_store) :
  fold_left check_step items st
  = {| st_prices := st_prices st;
       st_thresholds := st_thresholds st;
       st_messages := st_messages st ++ omap (entry_alert (st_thresholds st)) items |}.
Proof.
  revert st. induction items as [|item r IH]; intros st; simpl.
  - destruct st; simpl. by rewrite app_nil_r.
  - rewrite IH, check_step_spec. simpl. rewrite <- app_assoc. f_equal. f_equal.
    by destruct (entry_alert (st_thresholds st) item).
Qed.

Lemma check_run_spec (st : check_store) :
  check_run st
  = {| st_prices := st_prices st;
       st_thresholds := st_thresholds st;
       st_messages := omap (entry_alert (st_thresholds st)) (st_prices st) |}.
Proof. unfold check_run. by rewrite fold_check_step. Qed.

Lemma check_omap (am : AlertManager) (prices : dict (option float)) :
  check am prices = omap (entry_alert (thresholds am)) prices.
Proof. unfold check. by rewrite check_run_spec. Qed.

Lemma check_app (am : AlertManager) (p1 p2 : dict (option float)) :
  check am (p1 ++ p2) = check am p1 ++ check am p2.
Proof. by rewrite !check_omap, omap_app. Qed.

Lemma check_all_absent (am : AlertManager) (prices : dict (option float)) :
  Forall (fun item => snd item = None) prices -> check am prices = [].
Proof.
  rewrite check_omap. induction 1 as [|[sym v] r Hv _ IH]; simpl; [done|].
  simpl in Hv. subst v. unfold entry_alert at 1. simpl. exact IH.
Qed.

(** C4: an entry of the price mapping whose symbol has a threshold and
    whose price is present contributes one alert to the result of [check]
    exactly when price <= threshold (so also when the price equals the
    threshold); an entry whose price is absent contributes none. *)
Theorem check_alert_iff_le (am : AlertManager)
  (before after : dict (option float)) (sym : string) (p thr : float) :
  dict_get (thresholds am) sym = Some thr ->
  check am (before ++ (sym, Some p) :: after)
  = check am before
    ++ (if PrimFloat.leb p thr then [alert_message sym p thr] else [])
    ++ check am after
  /\ (PrimFloat.eqb p thr = true ->
      check am (before ++ (sym, Some p) :: after)
      = check am before ++ [alert_message sym p thr] ++ check am after)
  /\ check am (before ++ (sym, None) :: after) = check am before ++ check am after.
Proof.
  intros Hthr.
  assert (check am [(sym, Some p)]
          = if PrimFloat.leb p thr then [alert_message sym p thr] else []) as Hone.
  { rewrite check_omap. simpl. unfold entry_alert. simpl. rewrite Hthr.
    by destruct (PrimFloat.leb p thr). }
  assert (check am (before ++ (sym, Some p) :: after)
          = check am before
            ++ (if PrimFloat.leb p thr then [alert_message sym p thr] else [])
            ++ check am after) as Hsome.
  { change ((sym, Some p) :: after) with ([(sym, Some p)] ++ after).
    by rewrite !check_app, Hone. }
  split; [exact Hsome|]. split.
  - intros Heq. rewrite Hsome. by rewrite (float_eqb_leb _ _ Heq).
  - change ((sym, None) :: after) with ([(sym, @None float)] ++ after).
    rewrite !check_app. by rewrite (check_omap am [(sym, None)]).
Qed.

End AlertFacts.

Section AlertPurity.
Context `{FT : FloatText}.

(** C9: [check] is pure and deterministic.  Run on a store holding the
    price mapping and the threshold mapping it leaves both as they were;
    run a second time it builds the same messages; the messages follow
    the order of the price mapping, which for a mapping the tracker
    produced (fetched, or substituted after a failed fetch) is the order
    in which the symbols are tracked. *)
Theorem check_pure_in_tracking_order (self : CryptoTracker) (st : check_store)
  (data : dict (dict jval)) (w : world) :
  constructed self ->
  st_prices (check_run st) = st_prices st
  /\ st_thresholds (check_run st) = st_thresholds st
  /\ st_messages (check_run (check_run st)) = st_messages (check_run st)
  /\ st_messages (check_run st)
     = omap (entry_alert (st_thresholds st)) (st_prices st)
  /\ (exists prices,
        snd (fetch_prices self (HttpJson data) w) = Ok prices
        /\ dict_keys prices = first_occurrences (symbols self))
  /\ dict_keys (all_absent (symbols self)) = first_occurrences (symbols self)
  /\ (NoDup (symbols self) -> first_occurrences (symbols self) = symbols self).
Proof.
  intros Hc. rewrite !check_run_spec. cbn [st_prices st_thresholds st_messages].
  do 4 (split; [done|]). split; [|split].
  - eexists. split; [reflexivity|].
    by apply (fetch_prices_keys self data w).
  - apply all_absent_keys.
  - apply first_occurrences_NoDup.
Qed.

End AlertPurity.

(** ** Portfolio *)

Lemma fold_priced (prices : dict (option float)) (holdings : dict float)
  (acc : float) :
  fold_left
    (fun total h =>
       match get_or_none prices (upper (fst h)) with
       | None => total
       | Some p => (total + p * snd h)%float
       end) holdings acc
  = fold_left PrimFloat.add
      (map (fun pq => (fst pq * snd pq)%float) (priced prices holdings)) acc.
Proof.
  revert acc. induction holdings as [|h r IH]; intros acc; simpl; [done|].
  unfold priced. simpl. fold (priced prices r).
  destruct (get_or_none prices (upper (fst h))); simpl; by rewrite IH.
Qed.

Lemma priced_app (prices : dict (option float)) (h1 h2 : dict float) :
  priced prices (h1 ++ h2) = priced prices h1 ++ priced prices h2.
Proof. apply omap_app. Qed.

(** C7: the portfolio value is the sum, taken in the order of the
    holdings from [0.0], of price times quantity over the holdings that
    have a price; a holding whose price is absent (stored as [None], or
    missing) leaves the total as it is without it; and
    [value({BTC: None, ETH: 2000}, {BTC: 1, ETH: 0.5})] is [1000.0]. *)
Theorem portfolio_value_sum (prices : dict (option float)) (holdings : dict float) :
  portfolio_value prices holdings
  = float_sum (map (fun pq => (fst pq * snd pq)%float) (priced prices holdings))
  /\ (forall h1 h2 sym qty,
        holdings = h1 ++ (sym, qty) :: h2 ->
        get_or_none prices (upper sym) = None ->
        portfolio_value prices holdings = portfolio_value prices (h1 ++ h2))
  /\ portfolio_value [("BTC", None); ("ETH", Some 2000%float)]
       [("BTC", 1%float); ("ETH", 0.5%float)] = 1000%float.
Proof.
  split; [apply fold_priced|]. split; [|reflexivity].
  intros h1 h2 sym qty -> Habs. unfold portfolio_value.
  rewrite !fold_priced, !priced_app. do 3 f_equal.
  unfold priced. simpl. by rewrite Habs.
Qed.

(** An instance: BTC is held but has no price. *)
Lemma portfolio_value_sum_witness :
  get_or_none [("BTC", None); ("ETH", Some 2000%float)] (upper "BTC") = None
  /\ portfolio_value [("BTC", None); ("ETH", Some 2000%float)]
       [("BTC", 1%float); ("ETH", 0.5%float)]
     = portfolio_value [("BTC", None); ("ETH", Some 2000%float)]
         [("ETH", 0.5%float)].
Proof.
  split; [reflexivity|].
  exact (proj1 (proj2 (portfolio_value_sum
                         [("BTC", None); ("ETH", Some 2000%float)]
                         [("BTC", 1%float); ("ETH", 0.5%float)]))
           [] [("ETH", 0.5%float)] "BTC" 1%float eq_refl eq_refl).
Defined.

(** ** Observation store *)

Section StoreFacts.
Context `{FT : FloatText}.

Lemma log_enabled (self : CryptoTracker) prices now io w path :
  csv_path self = Some path -> truthy (Some path) = true ->
  log self prices now io w
  = match io with
    | Some e => (emit (FileOpen path "a") w, Raise (Exception e))
    | None =>
        (write_file path (default [] (files w !! path) ++ [log_row self prices now])
           (emit (FileOpen path "a") w), Ok tt)
    end.
Proof. intros Hp Ht. unfold log. by rewrite Hp, Ht. Qed.

Lemma log_file (self : CryptoTracker) prices now io w path old :
  csv_path self = Some path -> truthy (Some path) = true ->
  files w !! path = Some old ->
  files (fst (log self prices now io w)) !! path
  = Some (old ++ match io with
                 | None => [log_row self prices now]
                 | Some _ => []
                 end).
Proof.
  intros Hp Ht Hold. rewrite (log_enabled _ _ _ _ _ path Hp Ht).
  destruct io; simpl.
  - by rewrite app_nil_r.
  - by rewrite lookup_insert_eq, Hold.
Qed.

Lemma log_all_file (self : CryptoTracker) obs w path old :
  csv_path self = Some path -> truthy (Some path) = true ->
  files w !! path = Some old ->
  files (log_all self obs w) !! path
  = Some (old ++ map (fun o => log_row self (obs_prices o) (obs_now o))
                   (filter (fun o => appended o = true) obs)).
Proof.
  intros Hp Ht. revert w old.
  induction obs as [|o r IH]; intros w old Hold; simpl.
  - by rewrite app_nil_r.
  - unfold log_all in *. simpl.
    rewrite (IH _ _ (log_file self _ _ _ w path old Hp Ht Hold)).
    rewrite filter_cons.
    destruct (decide (appended o = true)) as [Ha|Ha];
      unfold appended in Ha; destruct (obs_io o); simpl; try done.
    + by rewrite <- app_assoc.
    + by rewrite app_nil_r.
Qed.

Lemma init_existing (syms : list string) (vs path : string) io w old :
  truthy (Some path) = true -> files w !! path = Some old ->
  CryptoTracker_init syms vs (Some path) io w
  = (w, Ok (made_tracker syms vs (Some path))).
Proof.
  intros Ht Hold. unfold CryptoTracker_init, ensure_csv. rewrite Ht. simpl.
  by rewrite Hold.
Qed.

Lemma length_log_row (self : CryptoTracker) prices now :
  length (log_row self prices now) = 1 + length (symbols self).
Proof. unfold log_row. simpl. by rewrite length_map. Qed.

(** C5: the row [log] appends has exactly 1 + |tracked symbols| fields:
    the timestamp, then for each tracked symbol, in tracking order, the
    field of its price, which is the empty field when the price is
    absent; and that row is what a successful append adds to the file. *)
Theorem log_row_columns (self : CryptoTracker) (prices : dict (option float))
  (now : string) (w : world) :
  length (log_row self prices now) = 1 + length (symbols self)
  /\ log_row self prices now !! 0 = Some now
  /\ (forall i s, symbols self !! i = Some s ->
        log_row self prices now !! S i = Some (csv_field (get_or_none prices s)))
  /\ (forall i s, symbols self !! i = Some s -> get_or_none prices s = None ->
        log_row self prices now !! S i = Some "")
  /\ (forall path,
        csv_path self = Some path -> truthy (Some path) = true ->
        files (fst (log self prices now None w)) !! path
        = Some (default [] (files w !! path) ++ [log_row self prices now])).
Proof.
  split; [apply length_log_row|]. split; [done|].
  assert (forall i s, symbols self !! i = Some s ->
            log_row self prices now !! S i = Some (csv_field (get_or_none prices s)))
    as Hfield.
  { intros i s Hs. unfold log_row. simpl. by rewrite list_lookup_fmap, Hs. }
  split; [exact Hfield|]. split.
  - intros i s Hs Habs. by rewrite (Hfield i s Hs), Habs.
  - intros path Hp Ht. rewrite (log_enabled self _ _ _ _ path Hp Ht). simpl.
    by rewrite lookup_insert_eq.
Qed.

Lemma session_file (syms : list string) (vs path : string) run w old :
  truthy (Some path) = true -> files w !! path = Some old ->
  files (session syms vs path run w) !! path
  = Some (old ++ map (fun o => log_row (made_tracker syms vs (Some path))
                                 (obs_prices o) (obs_now o))
                   (filter (fun o => appended o = true) (snd run))).
Proof.
  intros Ht Hold. unfold session.
  rewrite (init_existing syms vs path (fst run) w old Ht Hold).
  by apply log_all_file.
Qed.

(** C6: when the log target already exists, initialising the store again
    and appending observations, over any number of runs of the process
    with the same symbols, leaves the rows that were there (the header
    first) as they were, in place and not repeated: the file is the old
    file followed by one data row per successful append. *)
Theorem header_stable (syms : list string) (vs path : string)
  (runs : list (option string * list observation)) (w : world)
  (old : list (list string)) :
  truthy (Some path) = true ->
  files w !! path = Some old ->
  files (sessions syms vs path runs w) !! path
  = Some (old ++ map (fun o => log_row (made_tracker syms vs (Some path))
                                 (obs_prices o) (obs_now o))
                   (filter (fun o => appended o = true) (concat (map snd runs))))
  /\ (forall io, CryptoTracker_init syms vs (Some path) io w
                 = (w, Ok (made_tracker syms vs (Some path))))
  /\ (forall header data, old = header :: data ->
        head (default [] (files (sessions syms vs path runs w) !! path))
        = Some header).
Proof.
  intros Ht Hold.
  assert (files (sessions syms vs path runs w) !! path
          = Some (old ++ map (fun o => log_row (made_tracker syms vs (Some path))
                                         (obs_prices o) (obs_now o))
                           (filter (fun o => appended o = true)
                              (concat (map snd runs))))) as Hfile.
  { clear -Ht Hold. revert w old Hold.
    induction runs as [|run r IH]; intros w old Hold; simpl.
    - by rewrite app_nil_r.
    - unfold sessions in *. simpl.
      rewrite (IH _ _ (session_file syms vs path run w old Ht Hold)).
      by rewrite filter_app, map_app, app_assoc. }
  split; [exact Hfile|]. split.
  - intros io. by apply (init_existing syms vs path io w old).
  - intros header data ->. by rewrite Hfile.
Qed.

End StoreFacts.

(** ** Notifier *)

Lemma imap_delivery_succ (token chat : string) (post : nat -> option string)
  (i : nat) (r : list string) :
  imap ((fun j => delivery token chat post (i + j)) ∘ S) r
  = imap (fun j => delivery token chat post (S i + j)) r.
Proof. apply imap_ext. intros j x _. simpl. f_equal. lia. Qed.

Lemma send_each_spec (token chat : string) (post : nat -> option string)
  (messages : list string) (i : nat) (w : world) :
  send_each token chat post i messages w
  = {| files := files w;
       trace := trace w
                ++ concat (imap (fun j => delivery token chat post (i + j)) messages) |}.
Proof.
  revert i w. induction messages as [|msg r IH]; intros i w.
  - destruct w; simpl. by rewrite app_nil_r.
  - cbn [send_each]. rewrite IH, imap_cons, imap_delivery_succ.
    cbn [concat]. unfold delivery at 2. rewrite Nat.add_0_r.
    destruct (post i); simpl; f_equal; rewrite <- !app_assoc; done.
Qed.

Lemma posts_deliveries (token chat : string) (post : nat -> option string)
  (messages : list string) (i : nat) :
  posts (concat (imap (fun j => delivery token chat post (i + j)) messages))
  = map (fun msg => HttpPost (telegram_url token) [("chat_id", chat); ("text", msg)])
      messages.
Proof.
  revert i. induction messages as [|msg r IH]; intros i; [done|].
  rewrite imap_cons, imap_delivery_succ. cbn [concat map].
  unfold posts in *. rewrite filter_app, IH. unfold delivery.
  by destruct (post (i + 0)).
Qed.

(** C8: without both credentials [send_telegram] does nothing and
    attempts no delivery; with them it attempts the delivery of every
    message of the batch, one request each and in order, whatever
    requests failed before: a failure adds its report to the console and
    the loop goes on to the next message. *)
Theorem send_telegram_each_message (am : AlertManager) (messages : list string)
  (post : nat -> option string) (w : world) :
  (truthy (telegram_token am) && truthy (telegram_chat_id am) = false ->
   send_telegram am messages post w = w)
  /\ (forall token chat,
        telegram_token am = Some token -> telegram_chat_id am = Some chat ->
        truthy (Some token) && truthy (Some chat) = true ->
        files (send_telegram am messages post w) = files w
        /\ trace (send_telegram am messages post w)
           = trace w ++ concat (imap (delivery token chat post) messages)
        /\ posts (trace (send_telegram am messages post w))
           = posts (trace w)
             ++ map (fun msg => HttpPost (telegram_url token)
                                  [("chat_id", chat); ("text", msg)]) messages).
Proof.
  split.
  - intros Hno. unfold send_telegram. by rewrite Hno.
  - intros token chat Htok Hchat Hyes. unfold send_telegram.
    rewrite Htok, Hchat, Hyes. simpl. rewrite send_each_spec. simpl.
    split; [done|]. split; [done|].
    unfold posts at 1. rewrite filter_app. fold (posts (trace w)).
    f_equal. apply (posts_deliveries token chat post messages 0).
Qed.

(** ** Price fetcher *)

(** C3, as the code has it: with no symbol to track [fetch_prices] still
    issues its one request, with an empty [ids] parameter; it returns the
    empty mapping when the provider answers with a JSON object and raises
    when the request fails. *)
Theorem fetch_prices_empty (vs : string) (path : option string)
  (resp : http_result) (w : world) :
  fetch_prices (made_tracker [] vs path) resp w
  = (emit (HttpGet COINGECKO_SIMPLE_PRICE [("ids", ""); ("vs_currencies", vs)]) w,
     match resp with
     | HttpJson _ => Ok []
     | HttpError e => Raise (Exception e)
     end).
Proof. by destruct resp. Qed.

(** C3 as stated fails: fetching with an empty symbol set does issue a
    request. *)
Lemma fetch_prices_empty_requests :
  ~ (forall vs resp w, fetch_prices (made_tracker [] vs None) resp w = (w, Ok [])).
Proof.
  intros H. specialize (H "usd" (HttpJson []) empty_world).
  simpl in H. by injection H.
Qed.

(** ** Poll loop *)

Lemma all_absent_values (syms : list string) :
  Forall (fun item : string * option float => snd item = None) (all_absent syms).
Proof.
  unfold all_absent. generalize (Forall_nil_2 (fun item : string * option float => snd item = None)).
  generalize (@nil (string * option float)).
  induction syms as [|s r IH]; intros acc Hacc; simpl; [done|].
  apply IH. clear IH. induction Hacc as [|[k v] d Hv Hd IHd]; simpl.
  - by constructor.
  - destruct (String.eqb k s); constructor; done.
Qed.

Lemma all_absent_get (syms : list string) (s : string) :
  s ∈ syms -> dict_get (all_absent syms) s = Some None.
Proof.
  unfold all_absent. intros Hin.
  assert (s ∈ syms \/ dict_get (@nil (string * option float)) s = Some None) as H
    by by left.
  revert H. clear Hin. generalize (@nil (string * option float)).
  induction syms as [|x r IH]; intros acc [Hin|Hget]; simpl.
  - by apply elem_of_nil in Hin.
  - done.
  - apply IH. apply elem_of_cons in Hin as [->|Hin]; [right|by left].
    apply dict_get_set_same.
  - apply IH. right. destruct (decide (x = s)) as [->|Hne].
    + apply dict_get_set_same.
    + by rewrite dict_get_set_other.
Qed.

Lemma get_or_none_absent (d : dict (option float)) (s : string) :
  Forall (fun item => snd item = None) d -> get_or_none d s = None.
Proof.
  unfold get_or_none. induction 1 as [|[k v] r Hv _ IH]; simpl; [done|].
  simpl in Hv. subst v. by destruct (String.eqb k s).
Qed.

Section LoopFacts.
Context `{FT : FloatText}.



End LoopFacts.

Section FetchFailure.
Context `{FT : FloatText}.


End FetchFailure.

Section AppendFailure.
Context `{FT : FloatText}.

(** A tick whose fetch succeeds and whose append raises: the exception
    leaves the loop, whatever ticks would follow. *)
Lemma append_failure_aborts (args : Args) (tracker : CryptoTracker)
  (alerts : AlertManager) (holdings : dict float) (path : string)
  (env : tick_env) (envs : list tick_env) (w : world)
  (data : dict (dict jval)) (x : string) :
  fetch_response env = HttpJson data ->
  csv_path tracker = Some path -> truthy (Some path) = true ->
  log_io env = Some x ->
  snd (poll_loop args tracker alerts holdings (Some path) (env :: envs) w)
  = Aborted (Exception x).
Proof.
  intros Hf Hp Ht Hio. cbn [poll_loop]. unfold tick, fetch_prices.
  rewrite Hf, Ht. cbv zeta.
  by rewrite (log_enabled tracker _ _ _ _ path Hp Ht), Hio.
Qed.

End AppendFailure.

(** ** The properties at work on the examples *)



(** C2 fails on the code: when the append of a tick raises, the exception
    leaves [main]; the tick that would follow is never played, so no
    further append is attempted.  (The header row is untouched.)  A fetch
    that raises at the same place is caught and the loop goes on. *)
Theorem log_failure_aborts_loop :
  snd (main (FT := example_text) (example_args false) None
         [env_append_fails; env_ok] world_with_log)
  = Aborted (Exception "[Errno 28] No space left on device")
  /\ List.filter is_append
       (trace (fst (main (FT := example_text) (example_args false) None
                      [env_append_fails; env_ok] world_with_log)))
     = [FileOpen "prices.csv" "a"]
  /\ files (fst (main (FT := example_text) (example_args false) None
                   [env_append_fails; env_ok] world_with_log)) !! "prices.csv"
     = Some [csv_header example_tracker]
  /\ snd (main (FT := example_text) (example_args false) None
            [env_fetch_fails; env_ok] world_with_log)
     = Running.
Proof. vm_compute. by repeat split. Qed.

(** An instance of C4's theorem: BTC at its threshold, ETH without one. *)
Lemma check_alert_iff_le_witness :
  dict_get (thresholds example_alerts) "BTC" = Some 60000%float
  /\ check (FT := example_text) example_alerts
       [("BTC", Some 60000%float); ("ETH", Some 3000%float)]
     = [alert_message (FT := example_text) "BTC" 60000 60000].
Proof.
  split; [reflexivity|].
  exact (proj1 (check_alert_iff_le (FT := example_text) example_alerts
                  [] [("ETH", Some 3000%float)] "BTC" 60000 60000 eq_refl)).
Defined.

(** An instance of C9's theorem. *)
Lemma check_pure_in_tracking_order_witness :
  constructed example_tracker
  /\ dict_keys (all_absent (symbols example_tracker)) = ["BTC"; "ETH"].
Proof.
  split; [reflexivity|].
  exact (proj1 (proj2 (proj2 (proj2 (proj2 (proj2
           (check_pure_in_tracking_order (FT := example_text) example_tracker
              {| st_prices := []; st_thresholds := []; st_messages := [] |}
              example_data empty_world eq_refl))))))).
Defined.

(** An instance of C5's theorem: ETH has no price. *)
Lemma log_row_columns_witness :
  csv_path example_tracker = Some "prices.csv"
  /\ files (fst (log (FT := example_text) example_tracker
                   [("BTC", Some 59000%float); ("ETH", None)] "now" None
                   world_with_log)) !! "prices.csv"
     = Some [csv_header example_tracker; ["now"; "?"; ""]].
Proof.
  split; [reflexivity|].
  exact (proj2 (proj2 (proj2 (proj2
           (log_row_columns (FT := example_text) example_tracker
              [("BTC", Some 59000%float); ("ETH", None)] "now" world_with_log))))
           "prices.csv" eq_refl eq_refl).
Defined.

(** An instance of C6's theorem: two runs, the second with a failed
    append. *)
Lemma header_stable_witness :
  truthy (Some "prices.csv") = true
  /\ files world_with_log !! "prices.csv" = Some [csv_header example_tracker]
  /\ files (sessions (FT := example_text) ["btc"; "eth"] "usd" "prices.csv"
              [(None, [{| obs_prices := []; obs_now := "t1"; obs_io := None |}]);
               (None, [{| obs_prices := []; obs_now := "t2"; obs_io := Some "full" |};
                       {| obs_prices := []; obs_now := "t3"; obs_io := None |}])]
              world_with_log) !! "prices.csv"
     = Some [csv_header example_tracker; ["t1"; ""; ""]; ["t3"; ""; ""]].
Proof.
  split; [reflexivity|]. split; [reflexivity|].
  exact (proj1 (header_stable (FT := example_text) ["btc"; "eth"] "usd" "prices.csv"
                  [(None, [{| obs_prices := []; obs_now := "t1"; obs_io := None |}]);
                   (None, [{| obs_prices := []; obs_now := "t2"; obs_io := Some "full" |};
                           {| obs_prices := []; obs_now := "t3"; obs_io := None |}])]
                  world_with_log [csv_header example_tracker] eq_refl eq_refl)).
Defined.

(** An instance of C8's theorem: the first post fails, the second is
    attempted all the same. *)
Lemma send_telegram_each_message_witness :
  telegram_token example_notifier = Some "TOKEN"
  /\ telegram_chat_id example_notifier = Some "42"
  /\ trace (send_telegram example_notifier ["one"; "two"] first_post_fails empty_world)
     = [HttpPost (telegram_url "TOKEN") [("chat_id", "42"); ("text", "one")];
        PrintLine "Failed to send telegram: connection reset";
        HttpPost (telegram_url "TOKEN") [("chat_id", "42"); ("text", "two")]].
Proof.
  split; [reflexivity|]. split; [reflexivity|].
  exact (proj1 (proj2 (proj2 (send_telegram_each_message example_notifier
                                ["one"; "two"] first_post_fails empty_world)
                         "TOKEN" "42" eq_refl eq_refl eq_refl))).
Defined.

(** The end-to-end scenario of the specification: BTC at 59000 under its
    threshold of 60000 and ETH at 3000 give one alert, on BTC. *)
Example one_alert_for_btc :
  exists prices,
    snd (fetch_prices example_tracker (HttpJson example_data) empty_world) = Ok prices
    /\ check (FT := example_text)
         (AlertManager_init
            (Some (parse_thresholds (FT := example_text) (Some ["BTC:60000"])))
            None None) prices
       = [alert_message (FT := example_text) "BTC" 59000 60000].
Proof. eexists. split; reflexivity. Qed.

(** Permissive parsing: entries without a colon or without a number are
    skipped, a later entry for a symbol replaces the earlier one. *)
Example parse_skips_malformed :
  parse_thresholds (FT := example_text)
    (Some ["btc : 60000"; "nocolon"; "ETH:abc"; " eth:3000 "; "BTC:59000"])
  = [("BTC", 59000%float); ("ETH", 3000%float)].
Proof. reflexivity. Qed.

(** * Further properties of the code *)

(** ** Case conversion *)

Lemma upper_ascii_idem c : upper_ascii (upper_ascii c) = upper_ascii c.
Proof. by destruct c as [[] [] [] [] [] [] [] []]. Qed.

Lemma upper_lower_ascii c : upper_ascii (lower_ascii c) = upper_ascii c.
Proof. by destruct c as [[] [] [] [] [] [] [] []]. Qed.

Lemma lower_upper_ascii c : lower_ascii (upper_ascii c) = lower_ascii c.
Proof. by destruct c as [[] [] [] [] [] [] [] []]. Qed.

Lemma lower_ascii_idem c : lower_ascii (lower_ascii c) = lower_ascii c.
Proof. by destruct c as [[] [] [] [] [] [] [] []]. Qed.

Lemma str_map_compose (f g h : ascii -> ascii) s :
  (forall c, f (g c) = h c) -> str_map f (str_map g s) = str_map h s.
Proof. intros H. induction s as [|c r IH]; simpl; [done|]. by rewrite H, IH. Qed.

Lemma str_map_app (f : ascii -> ascii) (a b : string) :
  str_map f (a +:+ b) = str_map f a +:+ str_map f b.
Proof. induction a as [|c r IH]; simpl; [done|]. by rewrite IH. Qed.

Lemma upper_idem s : upper (upper s) = upper s.
Proof. apply str_map_compose, upper_ascii_idem. Qed.

Lemma upper_lower s : upper (lower s) = upper s.
Proof. apply str_map_compose, upper_lower_ascii. Qed.

Lemma lower_upper s : lower (upper s) = lower s.
Proof. apply str_map_compose, lower_upper_ascii. Qed.

Lemma lower_idem s : lower (lower s) = lower s.
Proof. apply str_map_compose, lower_ascii_idem. Qed.

Lemma dict_get_value {V} (d : dict V) k v :
  dict_get d k = Some v -> v ∈ map snd d.
Proof.
  induction d as [|[k' v'] r IH]; simpl; [done|].
  destruct (String.eqb k' k).
  - intros [= ->]. left.
  - intros H. right. by apply IH.
Qed.

(** ** Symbol resolver *)

(** X1: [to_id] does not depend on the case of the symbol it is given. *)
Theorem to_id_case_insensitive (s : string) :
  to_id (upper s) = to_id s /\ to_id (lower s) = to_id s.
Proof. unfold to_id. by rewrite upper_idem, upper_lower. Qed.

(** X2: for an ASCII symbol, the identifier [to_id] returns is in lower
    case; for an ASCII symbol that is not in the table it is the symbol
    in lower case. *)
Theorem to_id_lowercase (s : string) :
  ascii_only s = true ->
  lower (to_id s) = to_id s
  /\ (dict_get COINGECKO_IDS (upper s) = None -> to_id s = lower s).
Proof.
  intros _. unfold to_id. split.
  - destruct (dict_get COINGECKO_IDS (upper s)) as [v|] eqn:E; simpl.
    + apply dict_get_value in E.
      assert (Forall (fun v => lower v = v) (map snd COINGECKO_IDS)) as Htab
        by (repeat constructor).
      by apply (proj1 (Forall_forall _ _) Htab).
    + apply lower_idem.
  - intros ->. simpl. apply lower_upper.
Qed.

(** An instance: a symbol the table does not know. *)
Lemma to_id_lowercase_witness :
  ascii_only "Ltc" = true
  /\ dict_get COINGECKO_IDS (upper "Ltc") = None /\ to_id "Ltc" = "ltc".
Proof.
  split; [reflexivity|]. split; [reflexivity|].
  exact (proj2 (to_id_lowercase "Ltc" eq_refl) eq_refl).
Defined.

(** ** Portfolio *)

(** X3: the symbols of the holdings are looked up in upper case, so for
    holdings whose symbols are ASCII the value does not depend on the
    case in which they are spelled. *)
Theorem portfolio_value_case_insensitive (prices : dict (option float))
  (holdings : dict float) :
  Forall (fun h => ascii_only (fst h) = true) holdings ->
  portfolio_value prices (map (fun h => (upper (fst h), snd h)) holdings)
  = portfolio_value prices holdings
  /\ portfolio_value prices (map (fun h => (lower (fst h), snd h)) holdings)
     = portfolio_value prices holdings.
Proof.
  intros _. unfold portfolio_value. generalize 0%float.
  induction holdings as [|h r IH]; intros acc; [done|].
  cbn [map fold_left fst snd]. rewrite upper_idem, upper_lower.
  destruct (get_or_none prices (upper (fst h))); apply IH.
Qed.

(** An instance of X3: holdings spelled [btc] and [Eth]. *)
Lemma portfolio_value_case_insensitive_witness :
  Forall (fun h : string * float => ascii_only (fst h) = true)
    [("btc", 2%float); ("Eth", 0.5%float)]
  /\ portfolio_value [("BTC", Some 100%float); ("ETH", Some 2000%float)]
       [("BTC", 2%float); ("ETH", 0.5%float)]
     = portfolio_value [("BTC", Some 100%float); ("ETH", Some 2000%float)]
         [("btc", 2%float); ("Eth", 0.5%float)].
Proof.
  assert (Forall (fun h : string * float => ascii_only (fst h) = true)
            [("btc", 2%float); ("Eth", 0.5%float)]) as Hascii
    by (repeat constructor).
  split; [exact Hascii|].
  exact (proj1 (portfolio_value_case_insensitive
                  [("BTC", Some 100%float); ("ETH", Some 2000%float)]
                  [("btc", 2%float); ("Eth", 0.5%float)] Hascii)).
Defined.

(** ** Dictionaries built by a loop of assignments *)

Lemma existsb_eqb_false (s : string) (acc : list string) :
  existsb (String.eqb s) acc = false <-> s ∉ acc.
Proof.
  split.
  - intros Hex Hin. apply list_elem_of_In in Hin.
    assert (existsb (String.eqb s) acc = true) as Ht.
    { apply existsb_exists. exists s. split; [done|]. apply String.eqb_refl. }
    congruence.
  - intros Hnin. apply not_true_is_false. intros Hex.
    apply existsb_exists in Hex as (x & Hin & Heq).
    apply String.eqb_eq in Heq as <-. by apply Hnin, list_elem_of_In.
Qed.

Lemma add_key_NoDup (acc : list string) (s : string) :
  NoDup acc -> NoDup (add_key acc s).
Proof.
  intros Hnd. unfold add_key.
  destruct (existsb (String.eqb s) acc) eqn:E; [done|].
  apply NoDup_app. split; [done|]. split; [|apply NoDup_singleton].
  intros x Hx Hs. apply list_elem_of_singleton in Hs as ->.
  by apply existsb_eqb_false in E.
Qed.

Lemma dict_set_NoDup {V} k (v : V) d :
  NoDup (dict_keys d) -> NoDup (dict_keys (dict_set k v d)).
Proof. rewrite dict_keys_set. apply add_key_NoDup. Qed.

Lemma dict_set_upper_keys {V} k (v : V) d :
  upper k = k -> upper_keys d -> upper_keys (dict_set k v d).
Proof.
  intros Hk. unfold upper_keys. induction 1 as [|[k' v'] r Hk' Hr IH]; simpl.
  - by repeat constructor.
  - destruct (String.eqb k' k); constructor; done.
Qed.

Lemma dict_set_fresh {V} k (v : V) d :
  k ∉ dict_keys d -> dict_set k v d = d ++ [(k, v)].
Proof.
  induction d as [|[k' v'] r IH]; simpl; [done|].
  intros Hnin. apply not_elem_of_cons in Hnin as [Hne Hnin].
  destruct (String.eqb_spec k' k) as [->|_]; [done|]. by rewrite IH.
Qed.

Lemma fold_dict_set_fresh {V} (l acc : dict V) :
  NoDup (dict_keys (acc ++ l)) ->
  fold_left (fun d kv => dict_set (fst kv) (snd kv) d) l acc = acc ++ l.
Proof.
  revert acc. induction l as [|[k v] r IH]; intros acc Hnd; simpl.
  - by rewrite app_nil_r.
  - assert (k ∉ dict_keys acc) as Hk.
    { unfold dict_keys in *. rewrite map_app in Hnd. simpl in Hnd.
      apply NoDup_app in Hnd as (_ & Hdisj & _).
      intros Hin. apply (Hdisj k Hin). left. }
    rewrite (dict_set_fresh k v acc Hk), IH; rewrite <- app_assoc; done.
Qed.

Lemma dict_of_pairs_id {V} (d : dict V) :
  NoDup (dict_keys d) -> dict_of_pairs d = d.
Proof. intros H. unfold dict_of_pairs. by rewrite fold_dict_set_fresh. Qed.

Lemma fold_left_inv {A B} (I : A -> Prop) (f : A -> B -> A) (l : list B) (a : A) :
  I a -> (forall a b, I a -> I (f a b)) -> I (fold_left f l a).
Proof.
  intros Ha Hstep. revert a Ha.
  induction l as [|b r IH]; intros a Ha; simpl; [done|]. by apply IH, Hstep.
Qed.

Lemma fold_left_map_inv {A B C} (I : A -> Prop) (f : A -> B -> A) (g : C -> B)
  (l : list C) (a : A) :
  I a -> (forall a x, I a -> I (f a (g x))) -> I (fold_left f (map g l) a).
Proof.
  intros Ha Hstep. revert a Ha.
  induction l as [|x r IH]; intros a Ha; simpl; [done|]. by apply IH, Hstep.
Qed.

(** Unique upper-case keys: what an assignment under an upper-case key
    keeps. *)
Lemma dict_set_canonical {V} k (v : V) d :
  NoDup (dict_keys d) /\ upper_keys d ->
  NoDup (dict_keys (dict_set (upper k) v d)) /\ upper_keys (dict_set (upper k) v d).
Proof.
  intros [Hnd Hup]. split; [by apply dict_set_NoDup|].
  apply dict_set_upper_keys; [apply upper_idem|done].
Qed.

Lemma upper_keys_map_id {V} (d : dict V) :
  upper_keys d -> map (fun kv => (upper (fst kv), snd kv)) d = d.
Proof.
  induction 1 as [|[k v] r Hk _ IH]; simpl; [done|].
  simpl in Hk. by rewrite Hk, IH.
Qed.

Lemma upper_keys_get {V} (d : dict V) k :
  upper_keys d -> upper k <> k -> dict_get d k = None.
Proof.
  induction 1 as [|[k' v'] r Hk' _ IH]; intros Hk; simpl; [done|].
  simpl in Hk'. destruct (String.eqb_spec k' k) as [->|_]; [done|]. by apply IH.
Qed.

(** ** Price fetcher *)

Lemma dict_get_fold_set_other {A V} (key : A -> string) (val : A -> V)
  (l : list A) (acc : dict V) k :
  k ∉ map key l ->
  dict_get (fold_left (fun out x => dict_set (key x) (val x) out) l acc) k
  = dict_get acc k.
Proof.
  revert acc. induction l as [|x r IH]; intros acc Hnin; simpl; [done|].
  simpl in Hnin. apply not_elem_of_cons in Hnin as [Hne Hnin].
  rewrite IH by done. by apply dict_get_set_other.
Qed.

Lemma dict_get_fold_set {A V} (key : A -> string) (val : A -> V) (g : string -> V)
  (l : list A) (acc : dict V) k :
  (forall x, x ∈ l -> val x = g (key x)) ->
  k ∈ map key l ->
  dict_get (fold_left (fun out x => dict_set (key x) (val x) out) l acc) k
  = Some (g k).
Proof.
  revert acc. induction l as [|x r IH]; intros acc Hval Hin; simpl.
  - by apply elem_of_nil in Hin.
  - destruct (decide (k ∈ map key r)) as [Hr|Hr].
    + apply IH; [|done]. intros y Hy. apply Hval. by right.
    + simpl in Hin. apply elem_of_cons in Hin as [->|Hin]; [|done].
      rewrite dict_get_fold_set_other by done.
      rewrite dict_get_set_same, Hval; [done|left].
Qed.

Lemma zip_map_snd {A B} (f : A -> B) (l : list A) (x : A * B) :
  x ∈ zip l (map f l) -> snd x = f (fst x).
Proof.
  induction l as [|a r IH]; simpl; [by intros H; apply elem_of_nil in H|].
  intros H. apply elem_of_cons in H as [->|H]; [done|by apply IH].
Qed.

Lemma observed_get (tracker : CryptoTracker) (env : tick_env) (s : string) :
  constructed tracker -> s ∈ symbols tracker ->
  exists v, dict_get (observed tracker env) s = Some v.
Proof.
  intros Hc Hs. unfold observed, fetch_prices.
  destruct (fetch_response env) as [e|data].
  - exists None. by apply all_absent_get.
  - eexists.
    apply (dict_get_fold_set fst
             (fun si : string * string =>
                price_of_json
                  (dict_get (default [] (dict_get data (snd si)))
                     (vs_currency tracker)))
             (fun s => price_of_json
                         (dict_get (default [] (dict_get data (to_id s)))
                            (vs_currency tracker)))).
    + intros x Hx. unfold constructed in Hc. rewrite Hc in Hx.
      by rewrite (zip_map_snd to_id _ x Hx).
    + change (map fst ?l) with (l.*1). rewrite fst_zip; [done|].
      unfold constructed in Hc. by rewrite Hc, length_map.
Qed.

(** X4: when the request succeeds, the mapping [fetch_prices] returns
    gives every tracked symbol the price the response holds under the
    symbol's identifier and the quote currency, and absent when the
    response lacks the identifier, the currency or the value; it has no
    other key. *)
Theorem fetch_prices_lookup (self : CryptoTracker) (data : dict (dict jval))
  (w : world) :
  constructed self ->
  exists prices,
    snd (fetch_prices self (HttpJson data) w) = Ok prices
    /\ (forall s, s ∈ symbols self ->
          dict_get prices s
          = Some (price_of_json
                    (dict_get (default [] (dict_get data (to_id s)))
                       (vs_currency self))))
    /\ (forall s, s ∈ symbols self -> dict_get data (to_id s) = None ->
          dict_get prices s = Some None)
    /\ (forall k, k ∉ symbols self -> dict_get prices k = None).
Proof.
  intros Hc.
  pose (val := fun si : string * string =>
                 price_of_json
                   (dict_get (default [] (dict_get data (snd si)))
                      (vs_currency self))).
  exists (fold_left (fun out si => dict_set (fst si) (val si) out)
            (zip (symbols self) (ids self)) []).
  split; [reflexivity|].
  assert ((zip (symbols self) (ids self)).*1 = symbols self) as Hfst.
  { apply fst_zip. unfold constructed in Hc. by rewrite Hc, length_map. }
  assert (forall s, s ∈ symbols self ->
            dict_get (fold_left (fun out si => dict_set (fst si) (val si) out)
                        (zip (symbols self) (ids self)) []) s
            = Some (val (s, to_id s))) as Hget.
  { intros s Hs.
    apply (dict_get_fold_set fst val (fun s => val (s, to_id s))).
    - intros x Hx. unfold constructed in Hc. rewrite Hc in Hx.
      unfold val. by rewrite (zip_map_snd to_id _ x Hx).
    - change (map fst ?l) with (l.*1). by rewrite Hfst. }
  split; [exact Hget|]. split.
  - intros s Hs Hnone. rewrite (Hget s Hs). unfold val. simpl. by rewrite Hnone.
  - intros k Hk. rewrite (dict_get_fold_set_other fst val); [done|].
    change (map fst ?l) with (l.*1). by rewrite Hfst.
Qed.

(** ** Parsers and alert manager *)

Lemma cut_entry (sym val : string) :
  contains ":" sym = false -> cut ":" (sym +:+ ":" +:+ val) = Some (sym, val).
Proof.
  induction sym as [|c r IH]; simpl; [done|].
  destruct (Ascii.eqb c ":"); [done|]. intros H. by rewrite (IH H).
Qed.

Section ParserMore.
Context `{FT : FloatText}.

Lemma parse_thresholds_snoc (texts : list string) (t : string) :
  parse_thresholds (Some (texts ++ [t]))
  = match entry_in_words t with
    | Some kv => dict_set (fst kv) (snd kv) (parse_thresholds (Some texts))
    | None => parse_thresholds (Some texts)
    end.
Proof.
  unfold parse_thresholds. simpl. rewrite fold_left_app. simpl.
  apply parse_step_in_words.
Qed.

Lemma parse_thresholds_canonical (texts : option (list string)) :
  NoDup (dict_keys (parse_thresholds texts)) /\ upper_keys (parse_thresholds texts).
Proof.
  unfold parse_thresholds.
  apply (fold_left_inv (fun d : dict float => NoDup (dict_keys d) /\ upper_keys d)).
  - split; constructor.
  - intros d t Hd. destruct (negb (contains ":" t)); [done|].
    destruct (split1 ":" t) as [|sym [|val [|]]]; try done.
    destruct (float_of_str (strip val)); [|done]. by apply dict_set_canonical.
Qed.

(** X5: what the last entry of the list does to the result of
    [parse_thresholds]: an entry [sym:val] whose [sym] has no colon and
    whose value reads as a float sets the upper-cased, trimmed symbol to
    that value, replacing an earlier entry for the symbol; an entry whose
    value does not read as a float, or that has no colon, changes
    nothing.  [parse_holdings] does the same. *)
Theorem parse_last_entry (texts : list string) (sym val : string) :
  contains ":" sym = false ->
  parse_thresholds (Some (texts ++ [sym +:+ ":" +:+ val]))
  = match float_of_str (strip val) with
    | Some v => dict_set (upper (strip sym)) v (parse_thresholds (Some texts))
    | None => parse_thresholds (Some texts)
    end
  /\ parse_holdings (Some (texts ++ [sym +:+ ":" +:+ val]))
     = match float_of_str (strip val) with
       | Some v => dict_set (upper (strip sym)) v (parse_holdings (Some texts))
       | None => parse_holdings (Some texts)
       end
  /\ (forall v, float_of_str (strip val) = Some v ->
        dict_get (parse_thresholds (Some (texts ++ [sym +:+ ":" +:+ val])))
          (upper (strip sym)) = Some v)
  /\ (forall t, contains ":" t = false ->
        parse_thresholds (Some (texts ++ [t])) = parse_thresholds (Some texts)
        /\ parse_holdings (Some (texts ++ [t])) = parse_holdings (Some texts)).
Proof.
  intros Hsym.
  assert (parse_thresholds (Some (texts ++ [sym +:+ ":" +:+ val]))
          = match float_of_str (strip val) with
            | Some v => dict_set (upper (strip sym)) v (parse_thresholds (Some texts))
            | None => parse_thresholds (Some texts)
            end) as Hlast.
  { rewrite parse_thresholds_snoc. unfold entry_in_words.
    rewrite (cut_entry sym val Hsym), strip_upper.
    by destruct (float_of_str (strip val)). }
  assert (forall t, contains ":" t = false ->
            parse_thresholds (Some (texts ++ [t])) = parse_thresholds (Some texts))
    as Hskip.
  { intros t Ht. rewrite parse_thresholds_snoc. unfold entry_in_words.
    rewrite contains_cut in Ht. by destruct (cut ":" t). }
  split; [exact Hlast|]. split; [exact Hlast|]. split.
  - intros v Hv. rewrite Hlast, Hv. apply dict_get_set_same.
  - intros t Ht. split; exact (Hskip t Ht).
Qed.

End ParserMore.

Lemma upper_key_fresh {V} (K : string) (l : dict V) :
  Forall (fun kv => upper (fst kv) <> K) l ->
  K ∉ map fst (map (fun kv => (upper (fst kv), snd kv)) l).
Proof.
  induction 1 as [|kv r Hkv _ IH]; simpl; [apply not_elem_of_nil|].
  apply not_elem_of_cons. split; [congruence|done].
Qed.

(** X6: the thresholds of an alert manager have unique upper-case keys,
    whatever mapping it was built from.  A symbol that is not in upper
    case has no threshold; for every symbol, the value found under the
    symbol in upper case is the one of the last entry given for it,
    however that entry spelled it; and a symbol for which no entry was
    given has no threshold. *)
Theorem alert_manager_thresholds (thr : option (dict float))
  (token chat : option string) :
  NoDup (dict_keys (thresholds (AlertManager_init thr token chat)))
  /\ upper_keys (thresholds (AlertManager_init thr token chat))
  /\ (forall k, upper k <> k ->
        dict_get (thresholds (AlertManager_init thr token chat)) k = None)
  /\ (forall before k v after,
        thr = Some (before ++ (k, v) :: after) ->
        Forall (fun kv => upper (fst kv) <> upper k) after ->
        dict_get (thresholds (AlertManager_init thr token chat)) (upper k) = Some v)
  /\ (forall K,
        Forall (fun kv => upper (fst kv) <> K) (default [] thr) ->
        dict_get (thresholds (AlertManager_init thr token chat)) K = None).
Proof.
  assert (NoDup (dict_keys (thresholds (AlertManager_init thr token chat)))
          /\ upper_keys (thresholds (AlertManager_init thr token chat))) as [Hnd Hup].
  { unfold AlertManager_init, dict_of_pairs. simpl.
    apply (fold_left_map_inv
             (fun d : dict float => NoDup (dict_keys d) /\ upper_keys d)).
    - split; constructor.
    - intros d kv Hd. by apply dict_set_canonical. }
  split; [done|]. split; [done|]. split; [|split].
  - intros k Hk. by apply upper_keys_get.
  - intros before k v after -> Hafter.
    unfold AlertManager_init, dict_of_pairs. simpl.
    rewrite map_app, fold_left_app. simpl.
    rewrite (dict_get_fold_set_other fst snd); [apply dict_get_set_same|].
    by apply upper_key_fresh.
  - intros K Hnone. unfold AlertManager_init, dict_of_pairs. simpl.
    rewrite (dict_get_fold_set_other fst snd); [done|].
    by apply upper_key_fresh.
Qed.

(** An instance: thresholds given for [btc], [eth] and [Btc]. *)
Lemma alert_manager_thresholds_witness :
  upper "btc" <> "btc"
  /\ Forall (fun kv : string * float => upper (fst kv) <> upper "eth")
       [("Btc", 2%float)]
  /\ dict_get (thresholds (AlertManager_init
                            (Some [("btc", 1%float); ("eth", 3%float); ("Btc", 2%float)])
                            None None))
       "btc" = None
  /\ dict_get (thresholds (AlertManager_init
                            (Some [("btc", 1%float); ("eth", 3%float); ("Btc", 2%float)])
                            None None))
       (upper "eth") = Some 3%float.
Proof.
  assert (Forall (fun kv : string * float => upper (fst kv) <> upper "eth")
            [("Btc", 2%float)]) as Hafter
    by (repeat constructor; discriminate).
  split; [discriminate|]. split; [exact Hafter|]. split.
  - apply (proj1 (proj2 (proj2 (alert_manager_thresholds
             (Some [("btc", 1%float); ("eth", 3%float); ("Btc", 2%float)])
             None None)))).
    discriminate.
  - exact (proj1 (proj2 (proj2 (proj2 (alert_manager_thresholds
             (Some [("btc", 1%float); ("eth", 3%float); ("Btc", 2%float)])
             None None))))
             [("btc", 1%float)] "eth" 3%float [("Btc", 2%float)] eq_refl Hafter).
Defined.

Section ParsedThresholds.
Context `{FT : FloatText}.

(** X7: the mappings the parsers return have unique upper-case keys, so
    the alert manager [main] builds from the parsed thresholds holds
    exactly that mapping. *)
Theorem parsed_thresholds_kept (texts : option (list string))
  (token chat : option string) :
  NoDup (dict_keys (parse_thresholds texts))
  /\ upper_keys (parse_thresholds texts)
  /\ NoDup (dict_keys (parse_holdings texts))
  /\ upper_keys (parse_holdings texts)
  /\ thresholds (AlertManager_init (Some (parse_thresholds texts)) token chat)
     = parse_thresholds texts.
Proof.
  destruct (parse_thresholds_canonical texts) as [Hnd Hup].
  split; [done|]. split; [done|]. split; [exact Hnd|]. split; [exact Hup|].
  unfold AlertManager_init. simpl.
  rewrite (upper_keys_map_id _ Hup). by apply dict_of_pairs_id.
Qed.

End ParsedThresholds.

(** ** Traces and files *)

Lemma extends_refl (P : event -> Prop) (w : world) : extends P w w.
Proof. exists []. by rewrite app_nil_r. Qed.

Lemma extends_trans (P : event -> Prop) (w1 w2 w3 : world) :
  extends P w1 w2 -> extends P w2 w3 -> extends P w1 w3.
Proof.
  intros (n1 & H1 & F1) (n2 & H2 & F2). exists (n1 ++ n2).
  split; [by rewrite H2, H1, app_assoc|]. by apply Forall_app.
Qed.

Lemma extends_emit (P : event -> Prop) (e : event) (w : world) :
  P e -> extends P w (emit e w).
Proof. intros He. exists [e]. split; [done|]. by constructor. Qed.

Lemma extends_same_trace (P : event -> Prop) (w w' : world) :
  trace w' = trace w -> extends P w w'.
Proof. intros H. exists []. by rewrite app_nil_r. Qed.

Lemma extends_filter (f : event -> bool) (w w' : world) :
  extends (fun e => f e = false) w w' ->
  List.filter f (trace w') = List.filter f (trace w).
Proof.
  intros (new & -> & Hnew). rewrite List.filter_app.
  assert (List.filter f new = []) as ->; [|by rewrite app_nil_r].
  induction Hnew as [|e r He _ IH]; simpl; [done|]. by rewrite He.
Qed.

Lemma print_all_spec (lines : list string) (w : world) :
  print_all lines w
  = {| files := files w; trace := trace w ++ map PrintLine lines |}.
Proof.
  revert w. induction lines as [|m r IH]; intros w; simpl.
  - destruct w; simpl. by rewrite app_nil_r.
  - unfold print_all in *. simpl. rewrite IH. simpl. by rewrite <- app_assoc.
Qed.

Lemma extends_print_all (P : event -> Prop) (lines : list string) (w : world) :
  (forall s, P (PrintLine s)) -> extends P w (print_all lines w).
Proof.
  intros HP. rewrite print_all_spec. exists (map PrintLine lines).
  split; [done|]. apply Forall_forall. intros e He.
  apply list_elem_of_In, in_map_iff in He as (s & <- & _). apply HP.
Qed.

Lemma send_telegram_files (am : AlertManager) messages post (w : world) :
  files (send_telegram am messages post w) = files w.
Proof.
  unfold send_telegram. destruct (negb _); [done|]. by rewrite send_each_spec.
Qed.

Lemma extends_send_telegram (P : event -> Prop) (am : AlertManager)
  messages post (w : world) :
  (forall s, P (PrintLine s)) -> (forall u d, P (HttpPost u d)) ->
  extends P w (send_telegram am messages post w).
Proof.
  intros HPr HPo. unfold send_telegram. destruct (negb _); [apply extends_refl|].
  rewrite send_each_spec. eexists. split; [reflexivity|].
  generalize 0. induction messages as [|m r IH]; intros i; [constructor|].
  rewrite imap_cons, imap_delivery_succ. cbn [concat].
  apply Forall_app. split; [|apply (IH (S i))].
  unfold delivery. rewrite Nat.add_0_r.
  destruct (post i); repeat constructor; done.
Qed.

Section TickFacts.
Context `{FT : FloatText}.

Lemma tick_parts (args : Args) (tracker : CryptoTracker) (alerts : AlertManager)
  (holdings : dict float) (csv : option string) (env : tick_env) (w : world) :
  tick args tracker alerts holdings csv env w
  = match (if truthy csv
           then log tracker (observed tracker env) (now_log env) (log_io env)
                  (before_log tracker env w)
           else (before_log tracker env w, Ok tt)) with
    | (w, Raise x) => (w, Raised x)
    | (w, Ok _) => after_log args tracker alerts holdings env w
    end.
Proof.
  unfold tick, before_log, after_log, observed, fetch_prices, price_request.
  by destruct (fetch_response env).
Qed.

Lemma before_log_files (tracker : CryptoTracker) (env : tick_env) (w : world) :
  files (before_log tracker env w) = files w.
Proof. unfold before_log. by destruct (fetch_response env). Qed.

Lemma before_log_trace (tracker : CryptoTracker) (env : tick_env) (w : world) :
  exists lines,
    trace (before_log tracker env w)
    = trace w ++ price_request tracker :: map PrintLine lines.
Proof.
  unfold before_log. destruct (fetch_response env) as [e|data]; simpl.
  - exists ["Fetch failed: " +:+ e;
            tick_line tracker (observed tracker env) (now_tick env)].
    by rewrite <- !app_assoc.
  - exists [tick_line tracker (observed tracker env) (now_tick env)].
    by rewrite <- !app_assoc.
Qed.

Lemma after_log_files (args : Args) (tracker : CryptoTracker)
  (alerts : AlertManager) (holdings : dict float) (env : tick_env) (w : world) :
  files (fst (after_log args tracker alerts holdings env w)) = files w.
Proof.
  unfold after_log.
  destruct (check alerts (observed tracker env)) as [|m ms], holdings as [|h hs],
    (arg_run_once args), (sleep_error (arg_interval args)), (interrupted env);
    simpl; rewrite ?send_telegram_files, ?print_all_spec; done.
Qed.

Lemma after_log_flow (args : Args) (tracker : CryptoTracker)
  (alerts : AlertManager) (holdings : dict float) (env : tick_env) (w : world) :
  snd (after_log args tracker alerts holdings env w)
  = if arg_run_once args then Break
    else match sleep_error (arg_interval args) with
         | Some e => Raised (Exception e)
         | None => if interrupted env then Raised KeyboardInterrupt else Continue
         end.
Proof.
  unfold after_log.
  by destruct (arg_run_once args), (sleep_error (arg_interval args)),
       (interrupted env).
Qed.

Lemma after_log_extends (P : event -> Prop) (args : Args)
  (tracker : CryptoTracker) (alerts : AlertManager) (holdings : dict float)
  (env : tick_env) (w : world) :
  (forall s, P (PrintLine s)) ->
  (check alerts (observed tracker env) <> [] -> forall u d, P (HttpPost u d)) ->
  (arg_run_once args = false -> sleep_error (arg_interval args) = None ->
   P (Sleep (arg_interval args))) ->
  extends P w (fst (after_log args tracker alerts holdings env w)).
Proof.
  intros HPr HPo HSl. unfold after_log.
  set (msgs := check alerts (observed tracker env)) in *.
  assert (extends P w
            match msgs with
            | [] => w
            | _ :: _ => send_telegram alerts msgs (post_io env) (print_all msgs w)
            end) as H1.
  { destruct msgs as [|m ms]; [apply extends_refl|].
    eapply extends_trans; [by apply extends_print_all|].
    apply extends_send_telegram; [done|]. by apply HPo. }
  eapply extends_trans; [exact H1|]. clear H1.
  set (w1 := match msgs with [] => w | _ :: _ => _ end).
  assert (extends P w1
            match holdings with
            | [] => w1
            | _ :: _ =>
                emit (PrintLine ("PORTFOLIO VALUE: "
                                 +:+ fmt_2f (portfolio_value (observed tracker env) holdings)
                                 +:+ " " +:+ upper (vs_currency tracker))) w1
            end) as H2.
  { destruct holdings; [apply extends_refl|]. by apply extends_emit. }
  eapply extends_trans; [exact H2|]. clear H2.
  destruct (arg_run_once args); simpl; [apply extends_refl|].
  destruct (sleep_error (arg_interval args)); simpl; [apply extends_refl|].
  destruct (interrupted env); simpl; by apply extends_emit, HSl.
Qed.

Lemma log_succeeds (self : CryptoTracker) prices now (w : world) :
  snd (log self prices now None w) = Ok tt.
Proof.
  unfold log. destruct (truthy (csv_path self)); simpl; [|done].
  by destruct (csv_path self).
Qed.

Lemma log_extends (P : event -> Prop) (self : CryptoTracker) prices now io
  (w : world) :
  (forall path, csv_path self = Some path -> truthy (Some path) = true ->
     P (FileOpen path "a")) ->
  extends P w (fst (log self prices now io w)).
Proof.
  intros HP. unfold log. destruct (truthy (csv_path self)) eqn:Ht; simpl;
    [|apply extends_refl].
  destruct (csv_path self) as [path|]; [|apply extends_refl].
  destruct io; simpl.
  - by apply extends_emit, HP.
  - eapply extends_trans; [by apply extends_emit, HP|].
    by apply extends_same_trace.
Qed.

Lemma log_raises (self : CryptoTracker) prices now io (w w' : world) x :
  log self prices now io w = (w', Raise x) ->
  truthy (csv_path self) = true /\ exists e, io = Some e /\ x = Exception e.
Proof.
  unfold log. destruct (truthy (csv_path self)); simpl; [|done].
  destruct (csv_path self); [|done]. destruct io as [e|]; [|done].
  intros [= _ <-]. eauto.
Qed.

End TickFacts.

(** ** The poll loop, tick by tick *)

Section LoopMore.
Context `{FT : FloatText}.

Lemma tick_extends_before (P : event -> Prop) (args : Args)
  (tracker : CryptoTracker) (alerts : AlertManager) (holdings : dict float)
  (csv : option string) (env : tick_env) (w : world) :
  (forall s, P (PrintLine s)) ->
  (check alerts (observed tracker env) <> [] -> forall u d, P (HttpPost u d)) ->
  (arg_run_once args = false -> sleep_error (arg_interval args) = None ->
   P (Sleep (arg_interval args))) ->
  (truthy csv = true -> forall path, csv_path tracker = Some path ->
     truthy (Some path) = true -> P (FileOpen path "a")) ->
  extends P (before_log tracker env w)
    (fst (tick args tracker alerts holdings csv env w)).
Proof.
  intros HPr HPo HSl HOp. rewrite tick_parts.
  destruct (truthy csv) eqn:Ht.
  - pose proof (log_extends P tracker (observed tracker env) (now_log env)
                  (log_io env) (before_log tracker env w) (HOp eq_refl)) as Hlog.
    destruct (log tracker _ _ _ _) as [w3 [u|x]]; simpl in *; [|done].
    eapply extends_trans; [exact Hlog|]. by apply after_log_extends.
  - by apply after_log_extends.
Qed.

Lemma tick_extends (P : event -> Prop) (args : Args)
  (tracker : CryptoTracker) (alerts : AlertManager) (holdings : dict float)
  (csv : option string) (env : tick_env) (w : world) :
  P (price_request tracker) ->
  (forall s, P (PrintLine s)) ->
  (check alerts (observed tracker env) <> [] -> forall u d, P (HttpPost u d)) ->
  (arg_run_once args = false -> sleep_error (arg_interval args) = None ->
   P (Sleep (arg_interval args))) ->
  (truthy csv = true -> forall path, csv_path tracker = Some path ->
     truthy (Some path) = true -> P (FileOpen path "a")) ->
  extends P w (fst (tick args tracker alerts holdings csv env w)).
Proof.
  intros HGet HPr HPo HSl HOp.
  eapply extends_trans; [|by apply tick_extends_before].
  destruct (before_log_trace tracker env w) as [lines Hl].
  eexists. split; [exact Hl|]. constructor; [done|].
  apply Forall_forall. intros e He.
  apply list_elem_of_In, in_map_iff in He as (s & <- & _). apply HPr.
Qed.

Lemma tick_files (args : Args) (tracker : CryptoTracker) (alerts : AlertManager)
  (holdings : dict float) (csv : option string) (env : tick_env) (w : world) :
  csv_path tracker = csv ->
  files (fst (tick args tracker alerts holdings csv env w))
  = match csv, log_io env with
    | Some path, None =>
        if truthy csv
        then <[path := default [] (files w !! path)
                       ++ [log_row tracker (observed tracker env) (now_log env)]]>
               (files w)
        else files w
    | _, _ => files w
    end.
Proof.
  intros Hcsv. rewrite tick_parts. destruct (truthy csv) eqn:Ht.
  - destruct csv as [path|]; [|done].
    rewrite (log_enabled tracker _ _ _ _ path Hcsv Ht).
    destruct (log_io env); cbn [fst].
    + apply before_log_files.
    + rewrite after_log_files. unfold write_file, emit. cbn [files].
      by rewrite before_log_files.
  - rewrite after_log_files, before_log_files. by destruct csv, (log_io env).
Qed.

Lemma tick_flow (args : Args) (tracker : CryptoTracker) (alerts : AlertManager)
  (holdings : dict float) (csv : option string) (env : tick_env) (w : world) :
  match snd (tick args tracker alerts holdings csv env w) with
  | Continue =>
      arg_run_once args = false /\ sleep_error (arg_interval args) = None
      /\ interrupted env = false
  | Break => arg_run_once args = true
  | Raised KeyboardInterrupt =>
      arg_run_once args = false /\ sleep_error (arg_interval args) = None
      /\ interrupted env = true
  | Raised (Exception e) =>
      (truthy csv = true /\ log_io env = Some e)
      \/ (arg_run_once args = false /\ sleep_error (arg_interval args) = Some e)
  end.
Proof.
  rewrite tick_parts. destruct (truthy csv) eqn:Ht.
  - destruct (log tracker _ _ _ _) as [w3 [u|x]] eqn:El; simpl.
    + rewrite after_log_flow.
      destruct (arg_run_once args), (sleep_error (arg_interval args)),
        (interrupted env); auto.
    + apply log_raises in El as (_ & e & -> & ->). auto.
  - rewrite after_log_flow.
    destruct (arg_run_once args), (sleep_error (arg_interval args)),
      (interrupted env); auto.
Qed.


End LoopMore.

Lemma filter_print_lines (f : event -> bool) (lines : list string) :
  (forall s, f (PrintLine s) = false) ->
  List.filter f (map PrintLine lines) = [].
Proof.
  intros Hf. induction lines as [|s r IH]; simpl; [done|]. by rewrite Hf.
Qed.

Lemma portfolio_value_absent (prices : dict (option float)) (holdings : dict float) :
  Forall (fun item => snd item = None) prices ->
  portfolio_value prices holdings = 0%float.
Proof.
  intros Habs. unfold portfolio_value. generalize 0%float.
  induction holdings as [|h r IH]; intros acc; simpl; [done|].
  by rewrite (get_or_none_absent prices _ Habs).
Qed.

Section LoopProperties.
Context `{FT : FloatText}.

Lemma poll_loop_extends (P : event -> Prop) (args : Args)
  (tracker : CryptoTracker) (alerts : AlertManager) (holdings : dict float)
  (csv : option string) (envs : list tick_env) (w : world) :
  P (price_request tracker) ->
  (forall s, P (PrintLine s)) ->
  (forall u d, P (HttpPost u d)) ->
  (arg_run_once args = false -> sleep_error (arg_interval args) = None ->
   P (Sleep (arg_interval args))) ->
  (truthy csv = true -> forall path, csv_path tracker = Some path ->
     truthy (Some path) = true -> P (FileOpen path "a")) ->
  extends P w (fst (poll_loop args tracker alerts holdings csv envs w)).
Proof.
  intros HGet HPr HPo HSl HOp. revert w.
  induction envs as [|env r IH]; intros w; cbn [poll_loop]; [apply extends_refl|].
  pose proof (tick_extends P args tracker alerts holdings csv env w
                HGet HPr (fun _ => HPo) HSl HOp) as Ht.
  destruct (tick args tracker alerts holdings csv env w) as [w' [| |[m|]]];
    simpl in *; try done.
  - eapply extends_trans; [exact Ht|apply IH].
  - eapply extends_trans; [exact Ht|]. by apply extends_emit.
Qed.

Lemma poll_loop_files_other (args : Args) (tracker : CryptoTracker)
  (alerts : AlertManager) (holdings : dict float) (csv : option string)
  (envs : list tick_env) (w : world) (p : string) :
  csv_path tracker = csv -> csv <> Some p ->
  files (fst (poll_loop args tracker alerts holdings csv envs w)) !! p
  = files w !! p.
Proof.
  intros Hcsv Hp. revert w.
  induction envs as [|env r IH]; intros w; cbn [poll_loop]; [done|].
  assert (files (fst (tick args tracker alerts holdings csv env w)) !! p
          = files w !! p) as Ht.
  { rewrite (tick_files _ _ _ _ _ _ _ Hcsv).
    destruct csv as [path|], (log_io env); try done.
    destruct (truthy (Some path)); [|done].
    apply lookup_insert_ne. congruence. }
  destruct (tick args tracker alerts holdings csv env w) as [w' [| |[m|]]];
    simpl in *; try done.
  by rewrite IH.
Qed.

Lemma poll_loop_files_disabled (args : Args) (tracker : CryptoTracker)
  (alerts : AlertManager) (holdings : dict float) (csv : option string)
  (envs : list tick_env) (w : world) :
  csv_path tracker = csv -> truthy csv = false ->
  files (fst (poll_loop args tracker alerts holdings csv envs w)) = files w.
Proof.
  intros Hcsv Hoff. revert w.
  induction envs as [|env r IH]; intros w; cbn [poll_loop]; [done|].
  assert (files (fst (tick args tracker alerts holdings csv env w)) = files w)
    as Ht.
  { rewrite (tick_files _ _ _ _ _ _ _ Hcsv), Hoff.
    by destruct csv, (log_io env). }
  destruct (tick args tracker alerts holdings csv env w) as [w' [| |[m|]]];
    simpl in *; try done.
  by rewrite IH.
Qed.

(** X10: the loop writes to no file but the log: every other path is
    left as it was, and with logging disabled the files are unchanged and
    no file is opened at all. *)
Theorem poll_loop_touches_only_log (args : Args) (tracker : CryptoTracker)
  (alerts : AlertManager) (holdings : dict float) (csv : option string)
  (envs : list tick_env) (w : world) :
  csv_path tracker = csv ->
  (forall p, csv <> Some p ->
     files (fst (poll_loop args tracker alerts holdings csv envs w)) !! p
     = files w !! p)
  /\ (truthy csv = false ->
      files (fst (poll_loop args tracker alerts holdings csv envs w)) = files w
      /\ List.filter is_open
           (trace (fst (poll_loop args tracker alerts holdings csv envs w)))
         = List.filter is_open (trace w)).
Proof.
  intros Hcsv. split.
  - intros p Hp. by apply poll_loop_files_other.
  - intros Hoff. split; [by apply poll_loop_files_disabled|].
    apply extends_filter, poll_loop_extends; try done. congruence.
Qed.

(** X11: in run-once mode the loop plays one tick whatever would follow:
    it ends (or aborts on a failed append), and it never sleeps. *)
Theorem run_once_single_tick (args : Args) (tracker : CryptoTracker)
  (alerts : AlertManager) (holdings : dict float) (csv : option string)
  (env : tick_env) (envs : list tick_env) (w : world) :
  arg_run_once args = true ->
  poll_loop args tracker alerts holdings csv (env :: envs) w
  = poll_loop args tracker alerts holdings csv [env] w
  /\ snd (poll_loop args tracker alerts holdings csv (env :: envs) w) <> Running
  /\ List.filter is_sleep
       (trace (fst (poll_loop args tracker alerts holdings csv (env :: envs) w)))
     = List.filter is_sleep (trace w).
Proof.
  intros Hro. split; [|split].
  - cbn [poll_loop]. pose proof (tick_flow args tracker alerts holdings csv env w) as Hf.
    destruct (tick args tracker alerts holdings csv env w) as [w' [| |[m|]]];
      simpl in *; try done.
    destruct Hf. congruence.
  - cbn [poll_loop]. pose proof (tick_flow args tracker alerts holdings csv env w) as Hf.
    destruct (tick args tracker alerts holdings csv env w) as [w' [| |[m|]]];
      simpl in *; try done.
    destruct Hf. congruence.
  - apply extends_filter, poll_loop_extends; try done. congruence.
Qed.

Lemma tick_requests (args : Args) (tracker : CryptoTracker)
  (alerts : AlertManager) (holdings : dict float) (csv : option string)
  (env : tick_env) (w : world) :
  List.filter is_get (trace (fst (tick args tracker alerts holdings csv env w)))
  = List.filter is_get (trace w) ++ [price_request tracker].
Proof.
  rewrite (extends_filter is_get (before_log tracker env w)).
  - destruct (before_log_trace tracker env w) as [lines ->].
    rewrite List.filter_app. simpl. by rewrite filter_print_lines.
  - by apply tick_extends_before.
Qed.

(** X12: the loop issues exactly one price request per tick, never a
    retry: while it is still running, the requests it made are as many as
    the ticks played, each the same batched request. *)
Theorem poll_loop_one_request_per_tick (args : Args) (tracker : CryptoTracker)
  (alerts : AlertManager) (holdings : dict float) (csv : option string)
  (envs : list tick_env) (w : world) :
  snd (poll_loop args tracker alerts holdings csv envs w) = Running ->
  List.filter is_get
    (trace (fst (poll_loop args tracker alerts holdings csv envs w)))
  = List.filter is_get (trace w)
    ++ replicate (length envs) (price_request tracker).
Proof.
  revert w. induction envs as [|env r IH]; intros w; cbn [poll_loop].
  - intros _. simpl. by rewrite app_nil_r.
  - pose proof (tick_requests args tracker alerts holdings csv env w) as Hreq.
    destruct (tick args tracker alerts holdings csv env w) as [w' [| |[m|]]];
      simpl in *; try done.
    intros Hrun. rewrite (IH w' Hrun), Hreq. by rewrite <- app_assoc.
Qed.



(** X15: a tick whose fetch failed is quiet: its observation is the
    all-absent mapping, which raises no alert and values every portfolio
    at exactly 0.0, and the tick posts nothing to Telegram. *)
Theorem failed_fetch_quiet (args : Args) (tracker : CryptoTracker)
  (alerts : AlertManager) (holdings : dict float) (csv : option string)
  (env : tick_env) (w : world) (e : string) :
  fetch_response env = HttpError e ->
  observed tracker env = all_absent (symbols tracker)
  /\ check alerts (observed tracker env) = []
  /\ portfolio_value (observed tracker env) holdings = 0%float
  /\ List.filter is_post
       (trace (fst (tick args tracker alerts holdings csv env w)))
     = List.filter is_post (trace w).
Proof.
  intros Hf.
  assert (observed tracker env = all_absent (symbols tracker)) as Hobs.
  { unfold observed, fetch_prices. by rewrite Hf. }
  assert (check alerts (observed tracker env) = []) as Hcheck.
  { rewrite Hobs. apply check_all_absent, all_absent_values. }
  split; [done|]. split; [done|]. split.
  - rewrite Hobs. apply portfolio_value_absent, all_absent_values.
  - apply extends_filter, tick_extends; try done.
Qed.

End LoopProperties.

(** ** A new log target *)

Lemma init_fresh (syms : list string) (vs path : string) io (w : world) :
  truthy (Some path) = true -> files w !! path = None ->
  CryptoTracker_init syms vs (Some path) io w
  = match io with
    | Some e => (emit (FileOpen path "w") w, Raise (Exception e))
    | None =>
        (write_file path [csv_header (made_tracker syms vs (Some path))]
           (emit (FileOpen path "w") w),
         Ok (made_tracker syms vs (Some path)))
    end.
Proof.
  intros Ht Hnew. unfold CryptoTracker_init, ensure_csv. rewrite Ht. simpl.
  rewrite Hnew. by destruct io.
Qed.

Section FreshLog.
Context `{FT : FloatText}.

Lemma filter_appended_all (obs : list observation) :
  Forall (fun o => obs_io o = None) obs ->
  filter (fun o => appended o = true) obs = obs.
Proof.
  induction 1 as [|o r Ho _ IH]; [done|].
  rewrite filter_cons, IH. unfold appended. rewrite Ho. done.
Qed.

(** X8: on a log target that does not exist yet, a run of the process
    whose appends all succeed writes the header first and then one row
    per append, in order; the header and every row have the same number
    of fields, one more than there are tracked symbols. *)
Theorem fresh_log_rectangular (syms : list string) (vs path : string)
  (obs : list observation) (w : world) :
  truthy (Some path) = true ->
  files w !! path = None ->
  Forall (fun o => obs_io o = None) obs ->
  files (session syms vs path (None, obs) w) !! path
  = Some (csv_header (made_tracker syms vs (Some path))
          :: map (fun o => log_row (made_tracker syms vs (Some path))
                             (obs_prices o) (obs_now o)) obs)
  /\ Forall (fun r => length r = 1 + length syms)
       (csv_header (made_tracker syms vs (Some path))
        :: map (fun o => log_row (made_tracker syms vs (Some path))
                           (obs_prices o) (obs_now o)) obs).
Proof.
  intros Ht Hnew Hok. unfold session. cbn [fst snd].
  rewrite (init_fresh syms vs path None w Ht Hnew). split.
  - rewrite (log_all_file (made_tracker syms vs (Some path)) obs _ path
               [csv_header (made_tracker syms vs (Some path))]); [|done|done|].
    + by rewrite (filter_appended_all obs Hok).
    + simpl. apply lookup_insert_eq.
  - constructor.
    + simpl. by rewrite !length_map.
    + apply Forall_forall. intros r Hr.
      apply list_elem_of_In, in_map_iff in Hr as (o & <- & _).
      rewrite length_log_row. simpl. by rewrite length_map.
Qed.

(** X9: when the log target does not exist and cannot be created, [main]
    aborts at start-up with the error of the open: no price request is
    made and no tick is played. *)
Theorem main_aborts_on_unwritable_log (args : Args) (e : string)
  (envs : list tick_env) (w : world) :
  is_empty (arg_csv args) = false ->
  files w !! arg_csv args = None ->
  main args (Some e) envs w
  = (emit (FileOpen (arg_csv args) "w") w, Aborted (Exception e)).
Proof.
  intros Hne Hnew. unfold main. rewrite Hne.
  rewrite (init_fresh (arg_symbols args) "usd" (arg_csv args) (Some e) w); [done| |done].
  simpl. by rewrite Hne.
Qed.

End FreshLog.

(** ** Plot column *)

Lemma str_in_elem (x : string) (columns : list string) :
  str_in x columns = true <-> x ∈ columns.
Proof.
  unfold str_in. rewrite existsb_exists. split.
  - intros (y & Hin & Heq). apply String.eqb_eq in Heq as <-.
    by apply list_elem_of_In.
  - intros Hin. exists x. split; [by apply list_elem_of_In|apply String.eqb_refl].
Qed.

Lemma startswith_app (p s : string) : startswith p (p +:+ s) = true.
Proof.
  induction p as [|c r IH]; [done|].
  change (startswith (String c r) (String c (r +:+ s)) = true).
  cbn [startswith]. by rewrite Ascii.eqb_refl.
Qed.

Lemma append_assoc (a b c : string) : (a +:+ b) +:+ c = a +:+ (b +:+ c).
Proof.
  induction a as [|x r IH]; [done|].
  change (String x (r +:+ b) +:+ c = String x (r +:+ (b +:+ c))).
  change (String x ((r +:+ b) +:+ c) = String x (r +:+ (b +:+ c))).
  by rewrite IH.
Qed.

Lemma lower_app (a b : string) : lower (a +:+ b) = lower a +:+ lower b.
Proof. apply str_map_app. Qed.

(** The three names [plot_column] tries first all start, in lower case,
    with the symbol in lower case and an underscore. *)
Lemma tried_names_start (symbol : string) :
  startswith (lower symbol +:+ "_") (lower (symbol +:+ "_usd")) = true
  /\ startswith (lower symbol +:+ "_") (lower (symbol +:+ "_USD")) = true
  /\ startswith (lower symbol +:+ "_") (lower (upper (symbol +:+ "_usd"))) = true.
Proof.
  rewrite lower_upper, !lower_app.
  change (lower "_usd") with ("_" +:+ "usd"). change (lower "_USD") with ("_" +:+ "usd").
  rewrite <- !append_assoc. repeat split; apply startswith_app.
Qed.

Lemma filter_nil_forall {A} (f : A -> bool) (l : list A) :
  List.filter f l = [] <-> Forall (fun x => f x = false) l.
Proof.
  induction l as [|x r IH]; simpl.
  - split; [constructor|done].
  - destruct (f x) eqn:E.
    + split; [done|]. intros H. inversion H; congruence.
    + rewrite IH. split; [by constructor|]. intros H. by inversion H.
Qed.

Lemma filter_head_elem {A} (f : A -> bool) (l : list A) (x : A) (r : list A) :
  List.filter f l = x :: r -> x ∈ l.
Proof.
  intros H. apply list_elem_of_In.
  apply (proj1 (filter_In f x l)). rewrite H. by left.
Qed.

(** X16: for an ASCII symbol and ASCII column names, the column
    [plot_column] returns is one of the columns of the data frame; it
    raises exactly when no column, in lower case, starts with the symbol
    in lower case followed by an underscore. *)
Theorem plot_column_found (csv_path symbol : string) (columns : list string) :
  ascii_only symbol = true ->
  Forall (fun c => ascii_only c = true) columns ->
  (forall col, plot_column csv_path symbol columns = Ok col -> col ∈ columns)
  /\ ((exists x, plot_column csv_path symbol columns = Raise x)
      <-> Forall (fun c => startswith (lower symbol +:+ "_") (lower c) = false)
            columns).
Proof.
  intros _ _. destruct (tried_names_start symbol) as (Hs1 & Hs2 & Hs3).
  assert (forall name,
            startswith (lower symbol +:+ "_") (lower name) = true ->
            str_in name columns = true ->
            (forall col, Ok name = Ok col -> col ∈ columns)
            /\ ((exists x, Ok name = @Raise string x)
                <-> Forall (fun c => startswith (lower symbol +:+ "_") (lower c) = false)
                      columns)) as Hnamed.
  { intros name Hstart Hin. apply str_in_elem in Hin. split.
    - by intros col [= <-].
    - split; [by intros [x [=]]|]. intros Hall.
      apply (proj1 (Forall_forall _ _) Hall) in Hin. congruence. }
  unfold plot_column. cbv zeta.
  destruct (str_in (symbol +:+ "_usd") columns) eqn:E1.
  { repeat (progress (rewrite ?E1; cbn [negb andb])). by apply Hnamed. }
  destruct (str_in (symbol +:+ "_USD") columns) eqn:E2.
  { repeat (progress (rewrite ?E1, ?E2; cbn [negb andb])). by apply Hnamed. }
  destruct (str_in (upper (symbol +:+ "_usd")) columns) eqn:E3.
  { repeat (progress (rewrite ?E1, ?E2, ?E3; cbn [negb andb])). by apply Hnamed. }
  repeat (progress (rewrite ?E1, ?E2, ?E3; cbn [negb andb])).
  destruct (List.filter _ columns) as [|c r] eqn:Ef.
  - split; [done|]. split; [|by eauto]. intros _. by apply filter_nil_forall.
  - split.
    + intros col [= <-]. by apply (filter_head_elem _ _ _ _ Ef).
    + split; [by intros [x [=]]|]. intros Hall.
      apply filter_nil_forall in Hall. congruence.
Qed.

(** X17: a column named after the symbol and [usd] is chosen before any
    other, so in a data frame whose columns include the header the
    tracker writes with [usd] as quote currency, the column of every
    tracked symbol is found, and it is that symbol's own. *)
Theorem plot_column_of_tracked (self : CryptoTracker) (csv_path symbol : string)
  (columns : list string) :
  vs_currency self = "usd" ->
  symbol ∈ symbols self ->
  (forall c, c ∈ csv_header self -> c ∈ columns) ->
  plot_column csv_path symbol columns = Ok (symbol +:+ "_usd").
Proof.
  intros Hvs Hsym Hcols.
  assert (str_in (symbol +:+ "_usd") columns = true) as Hin.
  { apply str_in_elem, Hcols. unfold csv_header. rewrite Hvs. right.
    apply list_elem_of_In, in_map_iff. exists symbol.
    split; [done|by apply list_elem_of_In]. }
  unfold plot_column. cbv zeta.
  by repeat (progress (rewrite ?Hin; cbn [negb andb])).
Qed.

(** ** The further properties at work on the examples *)

(** An instance of X4: BTC is in the response. *)
Lemma fetch_prices_lookup_witness :
  constructed example_tracker
  /\ exists prices,
       snd (fetch_prices example_tracker (HttpJson example_data) empty_world)
       = Ok prices
       /\ dict_get prices "BTC" = Some (Some 59000%float).
Proof.
  split; [reflexivity|].
  destruct (fetch_prices_lookup example_tracker example_data empty_world eq_refl)
    as (prices & Hok & Hget & _).
  exists prices. split; [exact Hok|].
  rewrite (Hget "BTC"); [reflexivity|]. left.
Defined.

(** An instance of X5: a second entry for ETH replaces the first. *)
Lemma parse_last_entry_witness :
  contains ":" " eth" = false
  /\ parse_thresholds (FT := example_text) (Some (["ETH:3000"] ++ [" eth" +:+ ":" +:+ "2500 "]))
     = [("ETH", 2500%float)].
Proof.
  split; [reflexivity|].
  exact (proj1 (parse_last_entry (FT := example_text) ["ETH:3000"] " eth" "2500 "
                  eq_refl)).
Defined.

(** An instance of X8: a first run with two appends. *)
Lemma fresh_log_rectangular_witness :
  truthy (Some "prices.csv") = true
  /\ files empty_world !! "prices.csv" = None
  /\ files (session (FT := example_text) ["btc"; "eth"] "usd" "prices.csv"
              (None, [{| obs_prices := []; obs_now := "t1"; obs_io := None |};
                      {| obs_prices := [("BTC", Some 1%float)]; obs_now := "t2";
                         obs_io := None |}])
              empty_world) !! "prices.csv"
     = Some [["timestamp"; "BTC_usd"; "ETH_usd"];
             ["t1"; ""; ""];
             ["t2"; "?"; ""]].
Proof.
  assert (Forall (fun o => obs_io o = None)
            [{| obs_prices := []; obs_now := "t1"; obs_io := None |};
             {| obs_prices := [("BTC", Some 1%float)]; obs_now := "t2";
                obs_io := None |}]) as Hok
    by (repeat constructor).
  split; [reflexivity|]. split; [reflexivity|].
  exact (proj1 (fresh_log_rectangular (FT := example_text) ["btc"; "eth"] "usd"
                  "prices.csv"
                  [{| obs_prices := []; obs_now := "t1"; obs_io := None |};
                   {| obs_prices := [("BTC", Some 1%float)]; obs_now := "t2";
                      obs_io := None |}]
                  empty_world eq_refl eq_refl Hok)).
Defined.

(** An instance of X9: the disk is full at start-up. *)
Lemma main_aborts_on_unwritable_log_witness :
  is_empty (arg_csv (example_args false)) = false
  /\ files empty_world !! arg_csv (example_args false) = None
  /\ main (FT := example_text) (example_args false) (Some "disk full")
       [env_ok; env_ok] empty_world
     = (emit (FileOpen "prices.csv" "w") empty_world,
        Aborted (Exception "disk full")).
Proof.
  split; [reflexivity|]. split; [reflexivity|].
  exact (main_aborts_on_unwritable_log (FT := example_text) (example_args false)
           "disk full" [env_ok; env_ok] empty_world eq_refl eq_refl).
Defined.

(** An instance of X10: logging to [prices.csv] leaves [notes.txt] alone. *)
Lemma poll_loop_touches_only_log_witness :
  csv_path example_tracker = Some "prices.csv"
  /\ Some "prices.csv" <> Some "notes.txt"
  /\ files (fst (poll_loop (FT := example_text) (example_args false)
                   example_tracker example_alerts [] (Some "prices.csv")
                   [env_ok; env_fetch_fails] world_with_log)) !! "notes.txt"
     = files world_with_log !! "notes.txt".
Proof.
  split; [reflexivity|]. split; [discriminate|].
  apply (proj1 (poll_loop_touches_only_log (FT := example_text) (example_args false)
                  example_tracker example_alerts [] (Some "prices.csv")
                  [env_ok; env_fetch_fails] world_with_log eq_refl)).
  discriminate.
Defined.

(** An instance of X11. *)
Lemma run_once_single_tick_witness :
  arg_run_once (example_args true) = true
  /\ poll_loop (FT := example_text) (example_args true) example_tracker
       example_alerts [] (Some "prices.csv") [env_ok; env_fetch_fails; env_ok]
       world_with_log
     = poll_loop (FT := example_text) (example_args true) example_tracker
         example_alerts [] (Some "prices.csv") [env_ok] world_with_log.
Proof.
  split; [reflexivity|].
  exact (proj1 (run_once_single_tick (FT := example_text) (example_args true)
                  example_tracker example_alerts [] (Some "prices.csv") env_ok
                  [env_fetch_fails; env_ok] world_with_log eq_refl)).
Defined.

(** An instance of X12: two ticks, two requests, though one fetch failed. *)
Lemma poll_loop_one_request_per_tick_witness :
  snd (poll_loop (FT := example_text) (example_args false) example_tracker
         example_alerts [] (Some "prices.csv") [env_fetch_fails; env_ok]
         world_with_log) = Running
  /\ List.filter is_get
       (trace (fst (poll_loop (FT := example_text) (example_args false)
                      example_tracker example_alerts [] (Some "prices.csv")
                      [env_fetch_fails; env_ok] world_with_log)))
     = [price_request example_tracker; price_request example_tracker].
Proof.
  assert (snd (poll_loop (FT := example_text) (example_args false) example_tracker
                 example_alerts [] (Some "prices.csv") [env_fetch_fails; env_ok]
                 world_with_log) = Running) as Hrun by (vm_compute; reflexivity).
  split; [exact Hrun|].
  exact (poll_loop_one_request_per_tick (FT := example_text) (example_args false)
           example_tracker example_alerts [] (Some "prices.csv")
           [env_fetch_fails; env_ok] world_with_log Hrun).
Defined.



(** An instance of X15. *)
Lemma failed_fetch_quiet_witness :
  fetch_response env_fetch_fails = HttpError "timed out"
  /\ portfolio_value (observed example_tracker env_fetch_fails)
       [("BTC", 1%float); ("ETH", 0.5%float)] = 0%float.
Proof.
  split; [reflexivity|].
  exact (proj1 (proj2 (proj2 (failed_fetch_quiet (FT := example_text)
                                (example_args false) example_tracker
                                example_alerts [("BTC", 1%float); ("ETH", 0.5%float)]
                                (Some "prices.csv") env_fetch_fails world_with_log
                                "timed out" eq_refl)))).
Defined.

(** An instance of X16: no column for DOGE. *)
Lemma plot_column_found_witness :
  ascii_only "DOGE" = true
  /\ Forall (fun c => ascii_only c = true) ["timestamp"; "BTC_usd"; "ETH_usd"]
  /\ Forall (fun c => startswith (lower "DOGE" +:+ "_") (lower c) = false)
       ["timestamp"; "BTC_usd"; "ETH_usd"]
  /\ exists x, plot_column "prices.csv" "DOGE" ["timestamp"; "BTC_usd"; "ETH_usd"]
               = Raise x.
Proof.
  assert (Forall (fun c => ascii_only c = true) ["timestamp"; "BTC_usd"; "ETH_usd"])
    as Hascii by (repeat constructor).
  assert (Forall (fun c => startswith (lower "DOGE" +:+ "_") (lower c) = false)
            ["timestamp"; "BTC_usd"; "ETH_usd"]) as Hall
    by (repeat constructor).
  split; [reflexivity|]. split; [exact Hascii|]. split; [exact Hall|].
  exact (proj2 (proj2 (plot_column_found "prices.csv" "DOGE"
                         ["timestamp"; "BTC_usd"; "ETH_usd"] eq_refl Hascii)) Hall).
Defined.

(** An instance of X17: the column of ETH in the header of the examples. *)
Lemma plot_column_of_tracked_witness :
  vs_currency example_tracker = "usd"
  /\ "ETH" ∈ symbols example_tracker
  /\ plot_column "prices.csv" "ETH" (csv_header example_tracker) = Ok "ETH_usd".
Proof.
  assert ("ETH" ∈ symbols example_tracker) as Hin by (right; left).
  split; [reflexivity|]. split; [exact Hin|].
  exact (plot_column_of_tracked example_tracker "prices.csv" "ETH"
           (csv_header example_tracker) eq_refl Hin (fun c H => H)).
Defined.

(** ** Tick line *)

Section Display.
Context `{FT : FloatText}.

(** X18: the observation of a tick has an entry for every tracked symbol,
    so the tick line never shows [N/A]: a symbol without a price is shown
    as [None]. *)
Theorem absent_price_displayed_as_None (tracker : CryptoTracker)
  (env : tick_env) (s : string) :
  constructed tracker ->
  s ∈ symbols tracker ->
  dict_get (observed tracker env) s <> None
  /\ display_item (observed tracker env) s
     = s +:+ ": " +:+ match get_or_none (observed tracker env) s with
                      | None => "None"
                      | Some x => str_of_float x
                      end.
Proof.
  intros Hc Hs. destruct (observed_get tracker env s Hc Hs) as [v Hv].
  unfold display_item, get_or_none. rewrite Hv. split; [done|]. by destruct v.
Qed.

End Display.

(** An instance of X18: after a failed fetch BTC is shown as [None]. *)
Lemma absent_price_displayed_as_None_witness :
  constructed example_tracker
  /\ "BTC" ∈ symbols example_tracker
  /\ display_item (FT := example_text) (observed example_tracker env_fetch_fails) "BTC"
     = "BTC: None".
Proof.
  assert ("BTC" ∈ symbols example_tracker) as Hin by left.
  split; [reflexivity|]. split; [exact Hin|].
  exact (proj2 (absent_price_displayed_as_None (FT := example_text) example_tracker
                  env_fetch_fails "BTC" eq_refl Hin)).
Defined.

(** ** An interval [time.sleep] refuses *)

Lemma sleep_error_accepts (seconds : Z) :
  sleep_error seconds = None <-> (0 <= seconds <= 9223372036)%Z.
Proof.
  unfold sleep_error. cbv zeta.
  destruct (Z.ltb_spec (seconds * 1000000000) (-9223372036854775808));
    destruct (Z.ltb_spec 9223372036854775807 (seconds * 1000000000));
    destruct (Z.ltb_spec seconds 0); simpl; split; intros; try done; lia.
Qed.

Section RefusedInterval.
Context `{FT : FloatText}.

(** X19: with run-once mode off and an interval [time.sleep] refuses (a
    negative one, or one too large), the loop plays one tick in full and
    then aborts with the error of [time.sleep], without having slept,
    whatever ticks would follow: the interval is not validated and the
    error is not caught. *)
Theorem refused_interval_aborts (args : Args) (tracker : CryptoTracker)
  (alerts : AlertManager) (holdings : dict float) (csv : option string)
  (env : tick_env) (envs : list tick_env) (w : world) (e : string) :
  arg_run_once args = false ->
  sleep_error (arg_interval args) = Some e ->
  log_io env = None ->
  poll_loop args tracker alerts holdings csv (env :: envs) w
  = (fst (tick args tracker alerts holdings csv env w), Aborted (Exception e))
  /\ List.filter is_sleep
       (trace (fst (tick args tracker alerts holdings csv env w)))
     = List.filter is_sleep (trace w)
  /\ List.filter is_get
       (trace (fst (tick args tracker alerts holdings csv env w)))
     = List.filter is_get (trace w) ++ [price_request tracker].
Proof.
  intros Hro Hsl Hio. split; [|split].
  - cbn [poll_loop].
    assert (snd (tick args tracker alerts holdings csv env w)
            = Raised (Exception e)) as Hfl.
    { rewrite tick_parts, Hio.
      pose proof (log_succeeds tracker (observed tracker env) (now_log env)
                    (before_log tracker env w)) as Hok.
      destruct (truthy csv).
      - destruct (log tracker _ _ None _) as [w3 r]. simpl in Hok. subst r.
        by rewrite after_log_flow, Hro, Hsl.
      - by rewrite after_log_flow, Hro, Hsl. }
    destruct (tick args tracker alerts holdings csv env w) as [w' fl].
    simpl in *. by subst fl.
  - apply extends_filter, tick_extends; try done. congruence.
  - apply tick_requests.
Qed.

End RefusedInterval.

(** An instance of X19: [--interval -5]. *)
Lemma refused_interval_aborts_witness :
  arg_run_once negative_interval_args = false
  /\ sleep_error (arg_interval negative_interval_args)
     = Some "sleep length must be non-negative"
  /\ log_io env_ok = None
  /\ snd (poll_loop (FT := example_text) negative_interval_args example_tracker
            example_alerts [] (Some "prices.csv") [env_ok; env_ok] world_with_log)
     = Aborted (Exception "sleep length must be non-negative").
Proof.
  split; [reflexivity|]. split; [reflexivity|]. split; [reflexivity|].
  rewrite (proj1 (refused_interval_aborts (FT := example_text)
                    negative_interval_args example_tracker example_alerts []
                    (Some "prices.csv") env_ok [env_ok] world_with_log
                    "sleep length must be non-negative" eq_refl eq_refl eq_refl)).
  reflexivity.
Defined.
